(** * example-workers: upload route, uploaded-file lists and video player

    A shallow embedding of the TypeScript sources

    - [src/app/api/upload/route.ts]   (the [POST] upload handler),
    - [src/components/multiple_files.tsx] ([uploadFile], [handleRemove]),
    - [src/app/upload/page.tsx]       ([UploadPage]),
    - the gallery page ([GalleryPage]) and the home page ([Home]),
    - the video player component ([VideoPlayer]),

    followed by the properties proved about them.

    JavaScript strings are sequences of UTF-16 code units; they are modelled
    as [list N].  Asynchronous calls that may reject ([request.formData()],
    [file.arrayBuffer()], [s3Client.send]) are completions supplied by the
    environment; the handler runs in a small exception monad that also logs
    the externally visible effects (object-store writes, [console.error]). *)

From Stdlib Require Import ZArith NArith List Ascii String DecimalString PrimFloat.
From Stdlib Require DecimalPos DecimalZ.
From stdpp Require Import base gmap list strings.

Local Open Scope N_scope.

(** ** JavaScript strings *)

Abbreviation jsstring := (list N).

(** The code unit of an ASCII character. *)
Definition cu (a : ascii) : N := N_of_ascii a.

(** A string literal of the source. *)
Definition js (s : string) : jsstring := map cu (list_ascii_of_string s).
Arguments js s%_string : simpl never.

(** [String.prototype.startsWith(search)], position 0. *)
Fixpoint startsWith (s search : jsstring) : bool :=
  match search, s with
  | [], _ => true
  | c :: search', d :: s' => (c =? d) && startsWith s' search'
  | _ :: _, [] => false
  end.

(** Strict equality [===] of two strings. *)
Definition str_eqb (s t : jsstring) : bool := bool_decide (s = t).

(** ToBoolean on a string: only the empty string is falsy. *)
Definition truthy_str (s : jsstring) : bool :=
  match s with [] => false | _ :: _ => true end.

(** ToBoolean on [string | undefined]. *)
Definition truthy_opt (o : option jsstring) : bool :=
  match o with Some s => truthy_str s | None => false end.

(** A value of type [string | undefined] inside a template literal. *)
Definition interpolate (o : option jsstring) : jsstring :=
  match o with Some s => s | None => js "undefined" end.

(** [Number.prototype.toString()] of an integer of magnitude below 1e21,
    which covers every value of [Date.now()]. *)
Definition Number_toString (n : Z) : jsstring :=
  js (NilZero.string_of_int (Z.to_int n)).

(** *** Regular expressions of the shape [/[...]/g]

    Without the [u] flag a character class is matched against single code
    units. *)

Inductive ClassItem : Type :=
| CRange (lo hi : N)
| CChar (c : N).

Record CharClass : Type := {
  negated : bool;
  items : list ClassItem
}.

Definition item_matches (c : N) (it : ClassItem) : bool :=
  match it with
  | CRange lo hi => (lo <=? c) && (c <=? hi)
  | CChar d => c =? d
  end.

Definition class_matches (cc : CharClass) (c : N) : bool :=
  xorb (negated cc) (existsb (item_matches c) (items cc)).

(** [s.replace(/[...]/g, r)]: every matching code unit is replaced by [r]. *)
Definition replace_class_g (cc : CharClass) (r : jsstring) (s : jsstring)
  : jsstring :=
  flat_map (fun c => if class_matches cc c then r else [c]) s.

(** ** Completions, effects and the handler monad *)

Inductive JsError : Type :=
| TypeError (message : string)
| RejectedWith (message : string).

Inductive completion (A : Type) : Type :=
| Normal (a : A)
| Throw (e : JsError).
Arguments Normal {A} a.
Arguments Throw {A} e.

(** The bytes of an [ArrayBuffer] (and of the [Buffer] made from it). *)
Record ArrayBuffer : Type := {
  byteLength : N;
  byteAt : N -> Byte.byte
}.

(** [PutObjectCommandInput] as the handler fills it. *)
Record PutObjectCommand : Type := {
  Bucket : option jsstring;
  Key : jsstring;
  Body : ArrayBuffer;
  ContentType : jsstring
}.

Inductive Effect : Type :=
| S3Send (command : PutObjectCommand)
| ConsoleError (label : jsstring) (e : JsError).

Definition IO (A : Type) : Type := list Effect -> completion A * list Effect.

#[global] Instance IO_ret : MRet IO :=
  fun A (a : A) log => (Normal a, log).

Definition throw {A} (e : JsError) : IO A := fun log => (Throw e, log).

#[global] Instance IO_bind : MBind IO :=
  fun A B (k : A -> IO B) (m : IO A) log =>
    match m log with
    | (Normal a, log') => k a log'
    | (Throw e, log') => (Throw e, log')
    end.

(** [await p] for a promise whose settlement is known. *)
Definition await {A} (p : completion A) : IO A := fun log => (p, log).

Definition perform (ev : Effect) : IO unit :=
  fun log => (Normal tt, log ++ [ev]).

(** [try { m } catch (error) { h error }]. *)
Definition try_catch {A} (m : IO A) (h : JsError -> IO A) : IO A :=
  fun log =>
    match m log with
    | (Normal a, log') => (Normal a, log')
    | (Throw e, log') => h e log'
    end.

(** ** The upload route: [src/app/api/upload/route.ts] *)

Module UploadRoute.

(** A [File] of the form data. [File_arrayBuffer] is the settlement of
    [file.arrayBuffer()]. *)
Record File : Type := {
  File_name : jsstring;
  File_type : jsstring;
  File_size : N;
  File_arrayBuffer : completion ArrayBuffer
}.

(** [FormDataEntryValue = File | string]. *)
Inductive FormDataEntryValue : Type :=
| EFile (f : File)
| EString (s : jsstring).

Abbreviation FormData := (list (jsstring * FormDataEntryValue)).

(** [formData.get(name)]: the first entry of that name, or [null]. *)
Fixpoint FormData_get (fd : FormData) (name : jsstring)
  : option FormDataEntryValue :=
  match fd with
  | [] => None
  | (k, v) :: rest => if str_eqb k name then Some v else FormData_get rest name
  end.

Record NextRequest : Type := {
  request_formData : completion FormData
}.

(** What the handler reads from its surroundings. *)
Record World : Type := {
  env : gmap string jsstring;
  Date_now : Z;
  s3Client_send : PutObjectCommand -> completion unit
}.

Inductive ResponseBody : Type :=
| ErrorBody (error : jsstring)
| SuccessBody (success : bool) (url fileName type : jsstring).

Record NextResponse : Type := {
  status : N;
  body : ResponseBody
}.

(** [NextResponse.json(body, { status })]; the status defaults to 200. *)
Definition NextResponse_json (b : ResponseBody) (init : option N)
  : NextResponse :=
  {| status := default 200 init; body := b |}.

(** ToBoolean on [File | string | null]. *)
Definition truthy_entry (file : option FormDataEntryValue) : bool :=
  match file with
  | None => false
  | Some (EString s) => truthy_str s
  | Some (EFile _) => true
  end.

(** The first property access [file.type.startsWith]: a string entry has
    no [type], so the call throws a [TypeError]. *)
Definition as_File (file : option FormDataEntryValue) : IO File :=
  match file with
  | Some (EFile f) => mret f
  | _ => throw (TypeError "Cannot read properties of undefined (reading 'startsWith')")
  end.

(** The class [[^a-zA-Z0-9.-]]. *)
Definition unsafe_name_chars : CharClass :=
  {| negated := true;
     items := [CRange (cu "a") (cu "z"); CRange (cu "A") (cu "Z");
               CRange (cu "0") (cu "9"); CChar (cu "."); CChar (cu "-")] |}.

Definition isVideo_of (file : File) : bool :=
  startsWith (File_type file) (js "video/").

Definition isImage_of (file : File) : bool :=
  startsWith (File_type file) (js "image/").

Definition maxSize_of (isVideo : bool) : N :=
  if isVideo then 500 * 1024 * 1024 else 10 * 1024 * 1024.

Definition fileName_of (w : World) (file : File) : jsstring :=
  Number_toString (Date_now w) ++ js "-"
    ++ replace_class_g unsafe_name_chars (js "_") (File_name file).

Definition contentType_of (file : File) (isVideo : bool) : jsstring :=
  if truthy_str (File_type file) then File_type file
  else if isVideo then js "video/mp4" else js "image/jpeg".

Definition fileUrl_of (w : World) (fileName : jsstring) : jsstring :=
  if truthy_opt (env w !! "R2_PUBLIC_URL"%string)
  then interpolate (env w !! "R2_PUBLIC_URL"%string) ++ js "/"
         ++ interpolate (env w !! "AWS_S3_BUCKET_NAME"%string) ++ js "/"
         ++ fileName
  else interpolate (env w !! "AWS_S3_API_URL"%string) ++ js "/"
         ++ interpolate (env w !! "AWS_S3_BUCKET_NAME"%string) ++ js "/"
         ++ fileName.

(** [await s3Client.send(command)]: the request is issued, then settles. *)
Definition s3Client_send_command (w : World) (command : PutObjectCommand)
  : IO unit :=
  perform (S3Send command);;
  await (s3Client_send w command).

(** The body of the [try] block. *)
Definition POST_try (w : World) (request : NextRequest) : IO NextResponse :=
  formData ← await (request_formData request);
  let file := FormData_get formData (js "file") in
  if negb (truthy_entry file) then
    mret (NextResponse_json (ErrorBody (js "No file provided")) (Some 400))
  else
    file ← as_File file;
    let isVideo := isVideo_of file in
    let isImage := isImage_of file in
    if negb isImage && negb isVideo then
      mret (NextResponse_json
             (ErrorBody (js "Unsupported file type. Only images and videos are allowed."))
             (Some 400))
    else
      let maxSize := maxSize_of isVideo in
      if maxSize <? File_size file then
        mret (NextResponse_json
               (ErrorBody (js "File size exceeds "
                             ++ (if isVideo then js "500MB" else js "10MB")
                             ++ js " limit"))
               (Some 400))
      else
        buffer ← await (File_arrayBuffer file);
        let fileName := fileName_of w file in
        let contentType := contentType_of file isVideo in
        let command :=
          {| Bucket := env w !! "AWS_S3_BUCKET_NAME"%string;
             Key := fileName;
             Body := buffer;
             ContentType := contentType |} in
        s3Client_send_command w command;;
        let fileUrl := fileUrl_of w fileName in
        mret (NextResponse_json
               (SuccessBody true fileUrl fileName
                  (if isVideo then js "video" else js "image"))
               None).

(** [export async function POST(request)]. *)
Definition POST (w : World) (request : NextRequest) : IO NextResponse :=
  try_catch (POST_try w request)
    (fun error =>
       perform (ConsoleError (js "Upload error:") error);;
       mret (NextResponse_json (ErrorBody (js "Failed to upload file"))
              (Some 500))).

(** Running the handler from an empty effect log. *)
Definition run_POST (w : World) (request : NextRequest)
  : completion NextResponse * list Effect :=
  POST w request [].

(** The [S3Send] commands of an effect log, in order. *)
Definition sends (log : list Effect) : list PutObjectCommand :=
  omap (fun ev => match ev with S3Send c => Some c | _ => None end) log.

End UploadRoute.


(** ** Uploaded-file records and their JSON text *)

(** [type UploadedFile].  The field [type] is declared as
    ["image" | "video"] and optional; at run time it is a string or absent. *)
Record UploadedFile : Type := {
  id : jsstring;
  url : jsstring;
  name : jsstring;
  type : option jsstring
}.

Definition STORAGE_KEY : jsstring := js "r2-uploaded-files".

(** [localStorage]: [getItem k] is [ls !! k], [setItem k v] is
    [<[k:=v]> ls], [removeItem k] is [delete k ls]. *)
Abbreviation Storage := (gmap jsstring jsstring).

(** [f.type === "video"] and [f.type !== "video"]. *)
Definition type_is_video (f : UploadedFile) : bool :=
  match type f with
  | Some t => str_eqb t (js "video")
  | None => false
  end.

Definition type_is_not_video (f : UploadedFile) : bool :=
  negb (type_is_video f).

Module JSON.

Definition quotation_mark : N := 34.

Definition hex_digit (n : N) : N :=
  if n <? 10 then cu "0" + n else cu "a" + (n - 10).

Definition UnicodeEscape (c : N) : jsstring :=
  js "\u" ++ [hex_digit (c / 4096 mod 16); hex_digit (c / 256 mod 16);
              hex_digit (c / 16 mod 16); hex_digit (c mod 16)].

Definition isLeadingSurrogate (c : N) : bool := (55296 <=? c) && (c <=? 56319).
Definition isTrailingSurrogate (c : N) : bool := (56320 <=? c) && (c <=? 57343).

(** One code point that is not part of a surrogate pair. *)
Definition quote_code_point (c : N) : jsstring :=
  if c =? 8 then js "\b"
  else if c =? 9 then js "\t"
  else if c =? 10 then js "\n"
  else if c =? 12 then js "\f"
  else if c =? 13 then js "\r"
  else if c =? quotation_mark then [cu "\"; quotation_mark]
  else if c =? cu "\" then js "\\"
  else if (c <? 32) || isLeadingSurrogate c || isTrailingSurrogate c
       then UnicodeEscape c
  else [c].

Fixpoint quote_units (s : jsstring) : jsstring :=
  match s with
  | [] => []
  | c :: rest =>
      match rest with
      | d :: rest' =>
          if isLeadingSurrogate c && isTrailingSurrogate d
          then c :: d :: quote_units rest'
          else quote_code_point c ++ quote_units rest
      | [] => quote_code_point c
      end
  end.

(** QuoteJSONString. *)
Definition QuoteJSONString (s : jsstring) : jsstring :=
  quotation_mark :: quote_units s ++ [quotation_mark].

Definition property (key : string) (value : jsstring) : jsstring :=
  QuoteJSONString (js key) ++ js ":" ++ QuoteJSONString value.

(** An [UploadedFile] object; an absent [type] is left out. *)
Definition stringify_file (f : UploadedFile) : jsstring :=
  js "{" ++ property "id" (id f)
    ++ js "," ++ property "url" (url f)
    ++ js "," ++ property "name" (name f)
    ++ match type f with
       | Some t => js "," ++ property "type" t
       | None => []
       end
    ++ js "}".

Fixpoint join_comma (parts : list jsstring) : jsstring :=
  match parts with
  | [] => []
  | [p] => p
  | p :: rest => p ++ js "," ++ join_comma rest
  end.

(** [JSON.stringify(files)] for a list of [UploadedFile]. *)
Definition stringify (files : list UploadedFile) : jsstring :=
  js "[" ++ join_comma (map stringify_file files) ++ js "]".

End JSON.

(** The write that both pages perform after the list has changed:
    [if (files.length > 0) setItem(KEY, JSON.stringify(files)) else
    removeItem(KEY)]. *)
Definition store_files (files : list UploadedFile) (ls : Storage) : Storage :=
  if (0 <? length files)%nat
  then <[STORAGE_KEY := JSON.stringify files]> ls
  else delete STORAGE_KEY ls.

(** The effect that every page runs on mount:
    [stored = getItem(KEY); if (stored) try { setUploadedFiles(JSON.parse(stored)) } catch { ... }].
    [JSON_parse] stands for [JSON.parse] with the cast to [UploadedFile[]];
    the result is the list handed to [setUploadedFiles], if any. *)
Definition load_files (JSON_parse : jsstring -> completion (list UploadedFile))
    (ls : Storage) : option (list UploadedFile) :=
  match ls !! STORAGE_KEY with
  | Some stored =>
      if truthy_str stored then
        match JSON_parse stored with
        | Normal files => Some files
        | Throw _ => None
        end
      else None
  | None => None
  end.

(** ** The upload page with its [MultipleFileUpload] child *)

Module UploadPage.

Record State : Type := {
  (** [UploadPage]'s [uploadedFiles] *)
  uploadedFiles : list UploadedFile;
  (** [MultipleFileUpload]'s own [uploadedFiles] *)
  child_uploadedFiles : list UploadedFile;
  localStorage : Storage
}.

(** [handleUploadComplete(files)] followed by the effects that depend on
    the new list: the page's [useEffect(..., [uploadedFiles])] and the
    child's [useEffect(..., [initialFiles])]. *)
Definition handleUploadComplete (files : list UploadedFile) (st : State)
  : State :=
  {| uploadedFiles := files;
     child_uploadedFiles := files;
     localStorage := store_files files (localStorage st) |}.

(** Mounting the page: the loading effect queues the stored list, the
    persisting effect runs on the initial empty list, and after the
    re-render it runs again on the loaded list. *)
Definition mount (JSON_parse : jsstring -> completion (list UploadedFile))
    (ls : Storage) : State :=
  let initial :=
    {| uploadedFiles := []; child_uploadedFiles := [];
       localStorage := store_files [] ls |} in
  match load_files JSON_parse ls with
  | Some files => handleUploadComplete files initial
  | None => initial
  end.

Inductive Event : Type :=
| UploadSucceeded (uploadedFile : UploadedFile)
| UploadFailed
| Remove (fileId : jsstring).

Definition step (st : State) (ev : Event) : State :=
  match ev with
  | UploadSucceeded uploadedFile =>
      let updated := child_uploadedFiles st ++ [uploadedFile] in
      handleUploadComplete updated st
  | UploadFailed => st
  | Remove fileId =>
      let updated :=
        List.filter (fun f => negb (str_eqb (id f) fileId))
          (child_uploadedFiles st) in
      handleUploadComplete updated st
  end.

Definition mutates (ev : Event) : bool :=
  match ev with
  | UploadFailed => false
  | _ => true
  end.

Definition imageCount (st : State) : nat :=
  length (List.filter type_is_not_video (uploadedFiles st)).

Definition videoCount (st : State) : nat :=
  length (List.filter type_is_video (uploadedFiles st)).

End UploadPage.

(** ** The gallery page *)

Module Gallery.

Inductive Filter : Type := all | image | video.

Record State : Type := {
  uploadedFiles : list UploadedFile;
  filter : Filter;
  localStorage : Storage
}.

Definition handleRemove (fileId : jsstring) (st : State) : State :=
  let updated :=
    List.filter (fun f => negb (str_eqb (id f) fileId)) (uploadedFiles st) in
  {| uploadedFiles := updated;
     filter := filter st;
     localStorage := store_files updated (localStorage st) |}.

Definition matches_filter (flt : Filter) (file : UploadedFile) : bool :=
  match flt with
  | all => true
  | image => type_is_not_video file
  | video => type_is_video file
  end.

Definition filteredFiles (st : State) : list UploadedFile :=
  List.filter (matches_filter (filter st)) (uploadedFiles st).

Definition imageCount (st : State) : nat :=
  length (List.filter type_is_not_video (uploadedFiles st)).

Definition videoCount (st : State) : nat :=
  length (List.filter type_is_video (uploadedFiles st)).

(** Mounting the gallery only loads the stored list. *)
Definition mount (JSON_parse : jsstring -> completion (list UploadedFile))
    (ls : Storage) : State :=
  {| uploadedFiles := default [] (load_files JSON_parse ls);
     filter := all;
     localStorage := ls |}.

End Gallery.

(** ** The home page *)

Module Home.

Definition imageCount (uploadedFiles : list UploadedFile) : nat :=
  length (List.filter type_is_not_video uploadedFiles).

Definition videoCount (uploadedFiles : list UploadedFile) : nat :=
  length (List.filter type_is_video uploadedFiles).

End Home.

(** ** The video player component *)

Module VideoPlayer.

Record Props : Type := {
  url : jsstring;
  thumbnail : option jsstring;
  className : jsstring;
  name : option jsstring;
  autoPlay : bool
}.

(** The [useState] cells.  Numbers are IEEE 754 doubles. *)
Record State : Type := {
  isPlaying : bool;
  showControls : bool;
  isMuted : bool;
  volume : float;
  played : float;
  duration : float;
  showThumbnail : bool;
  error : option jsstring;
  isReady : bool
}.

Definition initial (p : Props) : State :=
  {| isPlaying := autoPlay p;
     showControls := false;
     isMuted := autoPlay p;
     volume := 1;
     played := 0;
     duration := 0;
     showThumbnail := true;
     error := None;
     isReady := false |}.

Definition setIsPlaying (v : bool) (s : State) : State :=
  {| isPlaying := v; showControls := showControls s; isMuted := isMuted s;
     volume := volume s; played := played s; duration := duration s;
     showThumbnail := showThumbnail s; error := error s;
     isReady := isReady s |}.

Definition setShowControls (v : bool) (s : State) : State :=
  {| isPlaying := isPlaying s; showControls := v; isMuted := isMuted s;
     volume := volume s; played := played s; duration := duration s;
     showThumbnail := showThumbnail s; error := error s;
     isReady := isReady s |}.

Definition setIsMuted (v : bool) (s : State) : State :=
  {| isPlaying := isPlaying s; showControls := showControls s; isMuted := v;
     volume := volume s; played := played s; duration := duration s;
     showThumbnail := showThumbnail s; error := error s;
     isReady := isReady s |}.

Definition setVolume (v : float) (s : State) : State :=
  {| isPlaying := isPlaying s; showControls := showControls s;
     isMuted := isMuted s; volume := v; played := played s;
     duration := duration s; showThumbnail := showThumbnail s;
     error := error s; isReady := isReady s |}.

Definition setPlayed (v : float) (s : State) : State :=
  {| isPlaying := isPlaying s; showControls := showControls s;
     isMuted := isMuted s; volume := volume s; played := v;
     duration := duration s; showThumbnail := showThumbnail s;
     error := error s; isReady := isReady s |}.

Definition setDuration (v : float) (s : State) : State :=
  {| isPlaying := isPlaying s; showControls := showControls s;
     isMuted := isMuted s; volume := volume s; played := played s;
     duration := v; showThumbnail := showThumbnail s; error := error s;
     isReady := isReady s |}.

Definition setShowThumbnail (v : bool) (s : State) : State :=
  {| isPlaying := isPlaying s; showControls := showControls s;
     isMuted := isMuted s; volume := volume s; played := played s;
     duration := duration s; showThumbnail := v; error := error s;
     isReady := isReady s |}.

Definition setError (v : option jsstring) (s : State) : State :=
  {| isPlaying := isPlaying s; showControls := showControls s;
     isMuted := isMuted s; volume := volume s; played := played s;
     duration := duration s; showThumbnail := showThumbnail s; error := v;
     isReady := isReady s |}.

Definition setIsReady (v : bool) (s : State) : State :=
  {| isPlaying := isPlaying s; showControls := showControls s;
     isMuted := isMuted s; volume := volume s; played := played s;
     duration := duration s; showThumbnail := showThumbnail s;
     error := error s; isReady := v |}.

Definition with_url (u : jsstring) (p : Props) : Props :=
  {| url := u; thumbnail := thumbnail p; className := className p;
     name := name p; autoPlay := autoPlay p |}.

(** *** What the component renders *)

Record PlayerView : Type := {
  loadingOverlay : bool;
  src : jsstring;
  muted : bool;
  thumbnailOverlay : bool;
  controlsOverlay : bool;
  controlsOpaque : bool;
  playButtonOverlay : bool;
  title : option jsstring
}.

Inductive View : Type :=
| NoSource
| ErrorFallback (message : jsstring) (href : jsstring) (target : jsstring)
| Player (v : PlayerView).

Definition render (p : Props) (s : State) : View :=
  if negb (truthy_str (url p)) then NoSource
  else if truthy_opt (error s) then
    ErrorFallback (interpolate (error s)) (url p) (js "_blank")
  else
    Player
      {| loadingOverlay := negb (isReady s) && negb (truthy_opt (error s));
         src := url p;
         muted := isMuted s;
         thumbnailOverlay := showThumbnail s && truthy_opt (thumbnail p);
         controlsOverlay := negb (showThumbnail s);
         controlsOpaque := showControls s || negb (isPlaying s);
         playButtonOverlay := negb (showThumbnail s) && negb (isPlaying s);
         title := if truthy_opt (name p) && showThumbnail s
                  then name p else None |}.

(** The [<video>] element exists exactly in the player view. *)
Definition video_mounted (p : Props) (s : State) : bool :=
  match render p s with
  | Player _ => true
  | _ => false
  end.

(** *** Event handlers *)

Definition handlePlay (s : State) : State := setIsPlaying true s.

Definition handlePause (s : State) : State := setIsPlaying false s.

(** The ["error"] listener of the effect at lines 101-125. *)
Definition handleError (s : State) : State :=
  setIsPlaying false
    (setError (Some (js "Failed to load video. Please try opening it in a new tab.")) s).

(** The [onError] property of the [<video>] element. *)
Definition onError (s : State) : State :=
  setIsPlaying false
    (setError (Some (js "Failed to load video. Please try opening it in a new tab.")) s).

Definition onLoadedData (s : State) : State :=
  setError None (setIsReady true s).

Definition handleLoadedMetadata (video_duration : float) (s : State) : State :=
  setIsReady true (setDuration video_duration s).

Definition handleTimeUpdate (currentTime videoDuration : float) (s : State)
  : State :=
  if PrimFloat.ltb 0 videoDuration
  then setPlayed (PrimFloat.div currentTime videoDuration) s
  else s.

Definition handleSeekChange (seekValue : float) (s : State) : State :=
  setPlayed seekValue s.

(** [handlePlayPause]: [play()] and [pause()] act on the element and come
    back as events; a rejected [play()] comes back as [playRejected]. *)
Definition handlePlayPause (s : State) : State := setShowThumbnail false s.

Definition playRejected (s : State) : State :=
  setError (Some (js "Unable to play video. Please try clicking play again.")) s.

Definition handleMouseMove (s : State) : State := setShowControls true s.

(** The timer callback closes over the [isPlaying] of the render in which
    the mouse moved. *)
Definition controlsTimeout (isPlaying_then : bool) (s : State) : State :=
  if isPlaying_then then setShowControls false s else s.

Definition onMouseLeave (s : State) : State :=
  if isPlaying s then setShowControls false s else s.

(** *** Effects *)

(** [useEffect(() => { if (isPlaying) setShowThumbnail(false) }, [isPlaying])] *)
Definition effect_isPlaying (before after : State) : State :=
  if negb (Bool.eqb (isPlaying before) (isPlaying after)) && isPlaying after
  then setShowThumbnail false after
  else after.

(** [useEffect(() => { setError(null); setIsReady(false) }, [url])] *)
Definition effect_url (s : State) : State :=
  setIsReady false (setError None s).

Inductive Event : Type :=
| PlayEvent
| PauseEvent
| ErrorEvent
| OnErrorCallback
| LoadedData
| LoadedMetadata (video_duration : float)
| TimeUpdate (currentTime videoDuration : float)
| SeekChange (seekValue : float)
| PlayPauseClick
| PlayRejected
| MuteClick
| VolumeChange (v : float)
| MouseMove
| ControlsTimeout (isPlaying_then : bool)
| MouseLeave
| UrlProp (newUrl : jsstring).

(** Events dispatched by the [<video>] element. *)
Definition from_video_element (ev : Event) : bool :=
  match ev with
  | PlayEvent | PauseEvent | ErrorEvent | OnErrorCallback | LoadedData
  | LoadedMetadata _ | TimeUpdate _ _ => true
  | _ => false
  end.

Definition handle (ev : Event) (s : State) : State :=
  match ev with
  | PlayEvent => handlePlay s
  | PauseEvent => handlePause s
  | ErrorEvent => handleError s
  | OnErrorCallback => onError s
  | LoadedData => onLoadedData s
  | LoadedMetadata d => handleLoadedMetadata d s
  | TimeUpdate t d => handleTimeUpdate t d s
  | SeekChange v => handleSeekChange v s
  | PlayPauseClick => handlePlayPause s
  | PlayRejected => playRejected s
  | MuteClick => setIsMuted (negb (isMuted s)) s
  | VolumeChange v => setVolume v s
  | MouseMove => handleMouseMove s
  | ControlsTimeout b => controlsTimeout b s
  | MouseLeave => onMouseLeave s
  | UrlProp _ => s
  end.

(** One event, then the effects whose dependencies changed. *)
Definition step (ps : Props * State) (ev : Event) : Props * State :=
  let (p, s) := ps in
  match ev with
  | UrlProp newUrl =>
      if str_eqb newUrl (url p) then (p, s)
      else (with_url newUrl p, effect_url s)
  | _ =>
      if from_video_element ev && negb (video_mounted p s) then (p, s)
      else (p, effect_isPlaying s (handle ev s))
  end.

Definition run (ps : Props * State) (evs : list Event) : Props * State :=
  fold_left step evs ps.

(** The state after mounting: the effects run once. *)
Definition mount (p : Props) : Props * State :=
  let s := initial p in
  (p, effect_url (if isPlaying s then setShowThumbnail false s else s)).

End VideoPlayer.

(** ** Vocabulary of the statements *)

Module Spec.

Import UploadRoute.

(** The characters that a sanitised name keeps. *)
Definition name_alphabet : jsstring :=
  js "abcdefghijklmnopqrstuvwxyzABCDEFGHIJKLMNOPQRSTUVWXYZ0123456789.-".

Definition in_name_alphabet (c : N) : bool := existsb (N.eqb c) name_alphabet.

(** The original name with every character outside [a-zA-Z0-9.-]
    replaced by an underscore. *)
Definition sanitized (name : jsstring) : jsstring :=
  map (fun c => if in_name_alphabet c then c else cu "_") name.

(** A letter, a digit, ".", "-" or "_". *)
Definition safe_char (c : N) : bool := in_name_alphabet c || (c =? cu "_").

(** The three validations of the handler, in the words of the
    statements: which requests fail one of them. *)
Definition no_file_entry (fd : FormData) : Prop :=
  FormData_get fd (js "file") = None.

Definition unsupported_type (f : File) : Prop :=
  startsWith (File_type f) (js "image/") = false
  /\ startsWith (File_type f) (js "video/") = false.

Definition size_limit (f : File) : N :=
  if startsWith (File_type f) (js "video/")
  then 500 * 1024 * 1024 else 10 * 1024 * 1024.

Definition validation_fails (fd : FormData) : Prop :=
  no_file_entry fd
  \/ exists f, FormData_get fd (js "file") = Some (EFile f)
               /\ (unsupported_type f \/ size_limit f < File_size f).

Definition validations_passed (req : NextRequest) (f : File) : Prop :=
  exists fd, request_formData req = Normal fd
             /\ FormData_get fd (js "file") = Some (EFile f)
             /\ ~ unsupported_type f
             /\ File_size f <= size_limit f.

Definition response500 : NextResponse :=
  {| status := 500; body := ErrorBody (js "Failed to upload file") |}.

Definition unsupported_response : NextResponse :=
  {| status := 400;
     body := ErrorBody (js "Unsupported file type. Only images and videos are allowed.") |}.

Definition size_message (f : File) : jsstring :=
  if startsWith (File_type f) (js "video/")
  then js "File size exceeds 500MB limit"
  else js "File size exceeds 10MB limit".

(** The public URL in the words of the statement about the success
    response: the first form whenever the variable is set at all. *)
Definition url_when_set (w : World) (fileName : jsstring) : jsstring :=
  match env w !! "R2_PUBLIC_URL"%string with
  | Some r2 =>
      r2 ++ js "/" ++ interpolate (env w !! "AWS_S3_BUCKET_NAME"%string)
         ++ js "/" ++ fileName
  | None =>
      interpolate (env w !! "AWS_S3_API_URL"%string) ++ js "/"
        ++ interpolate (env w !! "AWS_S3_BUCKET_NAME"%string)
        ++ js "/" ++ fileName
  end.

(** The same with "set" read as "set to a non-empty string". *)
Definition url_when_nonempty (w : World) (fileName : jsstring) : jsstring :=
  match env w !! "R2_PUBLIC_URL"%string with
  | Some (c :: r2) =>
      (c :: r2) ++ js "/"
        ++ interpolate (env w !! "AWS_S3_BUCKET_NAME"%string)
        ++ js "/" ++ fileName
  | _ =>
      interpolate (env w !! "AWS_S3_API_URL"%string) ++ js "/"
        ++ interpolate (env w !! "AWS_S3_BUCKET_NAME"%string)
        ++ js "/" ++ fileName
  end.

(** The storage key mirrors a list of records. *)
Definition mirrors (ls : Storage) (files : list UploadedFile) : Prop :=
  ls !! STORAGE_KEY
  = match files with
    | [] => None
    | _ :: _ => Some (JSON.stringify files)
    end.

End Spec.

(** ** The paths through the handler *)

Module Paths.

Import UploadRoute.

Definition no_file_response : NextResponse :=
  {| status := 400; body := ErrorBody (js "No file provided") |}.

Definition too_large_response (f : File) : NextResponse :=
  {| status := 400; body := ErrorBody (Spec.size_message f) |}.

(** The command that the handler builds for an accepted file. *)
Definition command_for (w : World) (f : File) (buffer : ArrayBuffer)
  : PutObjectCommand :=
  {| Bucket := env w !! "AWS_S3_BUCKET_NAME"%string;
     Key := fileName_of w f;
     Body := buffer;
     ContentType := contentType_of f (isVideo_of f) |}.

Definition success_response (w : World) (f : File) : NextResponse :=
  {| status := 200;
     body := SuccessBody true (fileUrl_of w (fileName_of w f))
               (fileName_of w f)
               (if isVideo_of f then js "video" else js "image") |}.

Definition logged (e : JsError) : Effect :=
  ConsoleError (js "Upload error:") e.

Definition not_a_file : JsError :=
  TypeError "Cannot read properties of undefined (reading 'startsWith')".

(** One constructor for each way through the [try] block: how it
    completes and the effects it has had by then. *)
Inductive try_path (w : World) (req : NextRequest)
  : completion NextResponse -> list Effect -> Prop :=
| formData_rejects e :
    request_formData req = Throw e ->
    try_path w req (Throw e) []
| file_missing fd :
    request_formData req = Normal fd ->
    truthy_entry (FormData_get fd (js "file")) = false ->
    try_path w req (Normal no_file_response) []
| entry_is_text fd s :
    request_formData req = Normal fd ->
    FormData_get fd (js "file") = Some (EString s) ->
    truthy_str s = true ->
    try_path w req (Throw not_a_file) []
| type_unsupported fd f :
    request_formData req = Normal fd ->
    FormData_get fd (js "file") = Some (EFile f) ->
    isImage_of f = false -> isVideo_of f = false ->
    try_path w req (Normal Spec.unsupported_response) []
| file_too_large fd f :
    request_formData req = Normal fd ->
    FormData_get fd (js "file") = Some (EFile f) ->
    isImage_of f || isVideo_of f = true ->
    maxSize_of (isVideo_of f) < File_size f ->
    try_path w req (Normal (too_large_response f)) []
| read_rejects fd f e :
    request_formData req = Normal fd ->
    FormData_get fd (js "file") = Some (EFile f) ->
    isImage_of f || isVideo_of f = true ->
    File_size f <= maxSize_of (isVideo_of f) ->
    File_arrayBuffer f = Throw e ->
    try_path w req (Throw e) []
| send_rejects fd f buffer e :
    request_formData req = Normal fd ->
    FormData_get fd (js "file") = Some (EFile f) ->
    isImage_of f || isVideo_of f = true ->
    File_size f <= maxSize_of (isVideo_of f) ->
    File_arrayBuffer f = Normal buffer ->
    s3Client_send w (command_for w f buffer) = Throw e ->
    try_path w req (Throw e) [S3Send (command_for w f buffer)]
| stored fd f buffer :
    request_formData req = Normal fd ->
    FormData_get fd (js "file") = Some (EFile f) ->
    isImage_of f || isVideo_of f = true ->
    File_size f <= maxSize_of (isVideo_of f) ->
    File_arrayBuffer f = Normal buffer ->
    s3Client_send w (command_for w f buffer) = Normal tt ->
    try_path w req (Normal (success_response w f))
      [S3Send (command_for w f buffer)].

(** What the [catch] clause makes of a completion of the [try] block. *)
Definition caught (r : completion NextResponse * list Effect)
  : completion NextResponse * list Effect :=
  match r with
  | (Normal resp, log) => (Normal resp, log)
  | (Throw e, log) => (Normal Spec.response500, log ++ [logged e])
  end.

End Paths.

(** ** Sample inputs *)

Module Sample.

Import UploadRoute.

Definition world : World :=
  {| env := <["AWS_S3_BUCKET_NAME"%string := js "media"]>
              (<["AWS_S3_API_URL"%string := js "https://acct.r2.cloudflarestorage.com"]>
                 (<["R2_PUBLIC_URL"%string := js "https://pub-1.r2.dev"]> ∅));
     Date_now := 1730000000000%Z;
     s3Client_send := fun _ => Normal tt |}.

(** [R2_PUBLIC_URL] is set, to the empty string. *)
Definition world_empty_public_url : World :=
  {| env := <["AWS_S3_BUCKET_NAME"%string := js "media"]>
              (<["AWS_S3_API_URL"%string := js "https://acct.r2.cloudflarestorage.com"]>
                 (<["R2_PUBLIC_URL"%string := []]> ∅));
     Date_now := 1730000000000%Z;
     s3Client_send := fun _ => Normal tt |}.

(** The object store rejects every write. *)
Definition world_store_down : World :=
  {| env := env world;
     Date_now := Date_now world;
     s3Client_send := fun _ => Throw (RejectedWith "ServiceUnavailable") |}.

Definition png : File :=
  {| File_name := js "my cat (1).png";
     File_type := js "image/png";
     File_size := 10 * 1024 * 1024;
     File_arrayBuffer :=
       Normal {| byteLength := 10 * 1024 * 1024; byteAt := fun _ => Byte.x00 |} |}.

Definition big_png : File :=
  {| File_name := js "big.png";
     File_type := js "image/png";
     File_size := 10 * 1024 * 1024 + 1;
     File_arrayBuffer :=
       Normal {| byteLength := 10 * 1024 * 1024 + 1; byteAt := fun _ => Byte.x00 |} |}.

Definition mp4 : File :=
  {| File_name := js "clip.mp4";
     File_type := js "video/mp4";
     File_size := 500 * 1024 * 1024;
     File_arrayBuffer :=
       Normal {| byteLength := 500 * 1024 * 1024; byteAt := fun _ => Byte.x00 |} |}.

Definition pdf : File :=
  {| File_name := js "notes.pdf";
     File_type := js "application/pdf";
     File_size := 1024;
     File_arrayBuffer :=
       Normal {| byteLength := 1024; byteAt := fun _ => Byte.x25 |} |}.

Definition upload (f : File) : NextRequest :=
  {| request_formData := Normal [(js "file", EFile f)] |}.

Definition no_file : NextRequest :=
  {| request_formData := Normal [(js "note", EString (js "hello"))] |}.

Definition text_field : NextRequest :=
  {| request_formData := Normal [(js "file", EString (js "hello"))] |}.

Definition cat : UploadedFile :=
  {| id := js "cat.png-1"; url := js "https://pub-1.r2.dev/media/1-cat.png";
     name := js "cat.png"; type := Some (js "image") |}.

Definition clip : UploadedFile :=
  {| id := js "clip.mp4-2"; url := js "https://pub-1.r2.dev/media/2-clip.mp4";
     name := js "clip.mp4"; type := Some (js "video") |}.

Definition legacy : UploadedFile :=
  {| id := js "old-3"; url := js "https://pub-1.r2.dev/media/3-old.jpg";
     name := js "old.jpg"; type := None |}.

Definition props : VideoPlayer.Props :=
  {| VideoPlayer.url := js "https://pub-1.r2.dev/media/2-clip.mp4";
     VideoPlayer.thumbnail := None;
     VideoPlayer.className := js "h-full w-full";
     VideoPlayer.name := Some (js "clip.mp4");
     VideoPlayer.autoPlay := false |}.

End Sample.


(** ** More of the JavaScript library *)

#[global] Instance completion_ret : MRet completion := fun A (a : A) => Normal a.

#[global] Instance completion_bind : MBind completion :=
  fun A B (k : A -> completion B) (m : completion A) =>
    match m with
    | Normal a => k a
    | Throw e => Throw e
    end.

(** [error.message]. *)
Definition message (e : JsError) : string :=
  match e with
  | TypeError m => m
  | RejectedWith m => m
  end.

(** [s.split(sep)] for a separator of one code unit; the array is never
    empty. *)
Fixpoint split_on (sep : N) (s : jsstring) : list jsstring :=
  match s with
  | [] => [[]]
  | c :: rest =>
      if c =? sep then [] :: split_on sep rest
      else match split_on sep rest with
           | seg :: segs => (c :: seg) :: segs
           | [] => [[c]]
           end
  end.

(** [String.prototype.includes(search)]. *)
Fixpoint includes (s search : jsstring) : bool :=
  startsWith s search
  || match s with
     | [] => false
     | _ :: s' => includes s' search
     end.

(** [x || ""] for [x : string | undefined]. *)
Definition or_empty (o : option jsstring) : jsstring :=
  match o with
  | Some s => if truthy_str s then s else []
  | None => []
  end.

Module URI.

(** The [URIError] that [decodeURIComponent] throws, carried with its name
    as message. *)
Definition URIError : JsError := RejectedWith "URIError: URI malformed".

Definition hex_value (c : N) : option N :=
  if (cu "0" <=? c) && (c <=? cu "9") then Some (c - cu "0")
  else if (cu "A" <=? c) && (c <=? cu "F") then Some (c - cu "A" + 10)
  else if (cu "a" <=? c) && (c <=? cu "f") then Some (c - cu "a" + 10)
  else None.

(** An escape ["%XX"] at the front of [s]: its octet and what follows. *)
Definition escape_octet (s : jsstring) : option (N * jsstring) :=
  match s with
  | p :: h1 :: h2 :: rest =>
      if p =? cu "%" then
        match hex_value h1, hex_value h2 with
        | Some a, Some b => Some (16 * a + b, rest)
        | _, _ => None
        end
      else None
  | _ => None
  end.

(** [n] further escapes. *)
Fixpoint continuation_octets (n : nat) (s : jsstring)
  : option (list N * jsstring) :=
  match n with
  | O => Some ([], s)
  | S n' =>
      match escape_octet s with
      | Some (B, rest) =>
          match continuation_octets n' rest with
          | Some (Bs, rest') => Some (B :: Bs, rest')
          | None => None
          end
      | None => None
      end
  end.

(** The number of leading 1 bits of an octet (5 stands for 5 or more). *)
Definition leading_ones (B : N) : nat :=
  if B <? 128 then 0
  else if B <? 192 then 1
  else if B <? 224 then 2
  else if B <? 240 then 3
  else if B <? 248 then 4
  else 5.

Definition is_continuation (B : N) : bool := (128 <=? B) && (B <? 192).

(** The code point of a valid UTF-8 sequence with first octet [B]: no
    overlong form, no surrogate, nothing above U+10FFFF. *)
Definition utf8_code_point (B : N) (Bs : list N) : option N :=
  match Bs with
  | [b1] =>
      let V := (B - 192) * 64 + (b1 - 128) in
      if is_continuation b1 && (128 <=? V) then Some V else None
  | [b1; b2] =>
      let V := (B - 224) * 4096 + (b1 - 128) * 64 + (b2 - 128) in
      if is_continuation b1 && is_continuation b2 && (2048 <=? V)
         && negb ((55296 <=? V) && (V <=? 57343))
      then Some V else None
  | [b1; b2; b3] =>
      let V := (B - 240) * 262144 + (b1 - 128) * 4096 + (b2 - 128) * 64
               + (b3 - 128) in
      if is_continuation b1 && is_continuation b2 && is_continuation b3
         && (65536 <=? V) && (V <=? 1114111)
      then Some V else None
  | _ => None
  end.

Definition UTF16EncodeCodePoint (V : N) : jsstring :=
  if V <? 65536 then [V]
  else [55296 + (V - 65536) / 1024; 56320 + (V - 65536) mod 1024].

(** The abstract operation Decode with an empty set of preserved escapes.
    Every step consumes at least one code unit, so [fuel] equal to the
    length of [s] is enough. *)
Fixpoint Decode (fuel : nat) (s : jsstring) : completion jsstring :=
  match fuel, s with
  | _, [] => Normal []
  | O, _ :: _ => Normal []
  | S fuel', c :: rest =>
      if c =? cu "%" then
        match escape_octet s with
        | None => Throw URIError
        | Some (B, rest1) =>
            match leading_ones B with
            | 0%nat => R ← Decode fuel' rest1; mret (B :: R)
            | 2%nat | 3%nat | 4%nat =>
                match continuation_octets (leading_ones B - 1) rest1 with
                | None => Throw URIError
                | Some (Bs, rest2) =>
                    match utf8_code_point B Bs with
                    | None => Throw URIError
                    | Some V =>
                        R ← Decode fuel' rest2;
                        mret (UTF16EncodeCodePoint V ++ R)
                    end
                end
            | _ => Throw URIError
            end
        end
      else R ← Decode fuel' rest; mret (c :: R)
  end.

Definition decodeURIComponent (s : jsstring) : completion jsstring :=
  Decode (length s) s.

End URI.

(** ** What a client reads from the response of the upload route *)

Module Client.

Import UploadRoute.

(** [response.ok]. *)
Definition Response_ok (resp : NextResponse) : bool :=
  (200 <=? status resp) && (status resp <=? 299).

(** The fields [url], [type] and [error] of [await response.json()]. *)
Definition data_url (b : ResponseBody) : option jsstring :=
  match b with
  | SuccessBody _ url _ _ => Some url
  | ErrorBody _ => None
  end.

Definition data_type (b : ResponseBody) : option jsstring :=
  match b with
  | SuccessBody _ _ _ type => Some type
  | ErrorBody _ => None
  end.

Definition data_error (b : ResponseBody) : option jsstring :=
  match b with
  | SuccessBody _ _ _ _ => None
  | ErrorBody error => Some error
  end.

(** [formData.append("file", file); fetch("/api/upload", { method: "POST",
    body: formData })] reaching the route handler of world [w]. *)
Definition fetch_upload (w : World) (file : File) : completion NextResponse :=
  (run_POST w {| request_formData := Normal [(js "file", EFile file)] |}).1.

(** [new Error(error.error || "Upload failed").message]. *)
Definition failure_message (b : ResponseBody) : jsstring :=
  if truthy_opt (data_error b) then interpolate (data_error b)
  else js "Upload failed".

End Client.

(** ** [MultipleFileUpload]: [src/components/multiple_files.tsx] *)

Module MultipleFileUpload.

Import UploadRoute.

Record State : Type := {
  page : UploadPage.State;
  uploadingIds : gset jsstring
}.

(** The record built at lines 87-92. *)
Definition uploadedFile_of (fileId : jsstring) (file : File)
    (data_url : jsstring) (data_type : option jsstring) : UploadedFile :=
  {| id := fileId;
     url := data_url;
     name := File_name file;
     type := Some (if truthy_opt data_type then interpolate data_type
                   else if startsWith (File_type file) (js "video/")
                        then js "video" else js "image") |}.

(** [uploadFile(file, fileId)] once [fetch] has settled with [response].
    The result is [None] for an ok response whose body has no [url]: the
    source then stores a record without [url], which [UploadedFile] does
    not express. *)
Definition uploadFile (response : completion NextResponse) (file : File)
    (fileId : jsstring) (st : State) : option State :=
  let uploading := uploadingIds st ∪ {[fileId]} in
  match response with
  | Throw _ =>
      Some {| page := page st; uploadingIds := uploading ∖ {[fileId]} |}
  | Normal resp =>
      if negb (Client.Response_ok resp) then
        Some {| page := page st; uploadingIds := uploading ∖ {[fileId]} |}
      else
        match Client.data_url (body resp) with
        | Some data_url =>
            let uploadedFile :=
              uploadedFile_of fileId file data_url
                (Client.data_type (body resp)) in
            Some {| page := UploadPage.step (page st)
                              (UploadPage.UploadSucceeded uploadedFile);
                    uploadingIds := uploading ∖ {[fileId]} |}
        | None => None
        end
  end.

(** [handleRemove(fileId)]. *)
Definition handleRemove (fileId : jsstring) (st : State) : State :=
  {| page := UploadPage.step (page st) (UploadPage.Remove fileId);
     uploadingIds := uploadingIds st |}.

End MultipleFileUpload.

(** ** [AvatarUpload] *)

Module AvatarUpload.

Import UploadRoute.

Record State : Type := {
  uploadedUrl : option jsstring;
  isUploading : bool;
  uploadError : option jsstring
}.

(** [props.imageUrl || null]. *)
Definition imageUrl_or_null (imageUrl : option jsstring) : option jsstring :=
  if truthy_opt imageUrl then imageUrl else None.

Definition initial (imageUrl : option jsstring) : State :=
  {| uploadedUrl := imageUrl_or_null imageUrl;
     isUploading := false;
     uploadError := None |}.

(** The state while the request is in flight. *)
Definition uploadFile_started (st : State) : State :=
  {| uploadedUrl := uploadedUrl st; isUploading := true; uploadError := None |}.

(** [uploadFile(file)] once [fetch] has settled with [response]; the second
    component is the argument of [props.onUploadComplete], when it is
    called. *)
Definition uploadFile (response : completion NextResponse) (st : State)
  : State * option (option jsstring) :=
  let st := uploadFile_started st in
  match response with
  | Throw e =>
      ({| uploadedUrl := uploadedUrl st; isUploading := false;
          uploadError := Some (js (message e)) |}, None)
  | Normal resp =>
      if negb (Client.Response_ok resp) then
        ({| uploadedUrl := uploadedUrl st; isUploading := false;
            uploadError := Some (Client.failure_message (body resp)) |}, None)
      else
        ({| uploadedUrl := Client.data_url (body resp); isUploading := false;
            uploadError := uploadError st |},
         Some (Client.data_url (body resp)))
  end.

Definition handleRemove (imageUrl : option jsstring) (st : State) : State :=
  {| uploadedUrl := imageUrl_or_null imageUrl;
     isUploading := isUploading st;
     uploadError := None |}.

(** [files[0]?.preview || uploadedUrl || null]. *)
Definition previewUrl (preview : option jsstring) (st : State)
  : option jsstring :=
  if truthy_opt preview then preview
  else if truthy_opt (uploadedUrl st) then uploadedUrl st
  else None.

End AvatarUpload.

(** ** The video page: [src/app/video/[id]/page.tsx] *)

Module VideoViewPage.

Record State : Type := {
  video : option UploadedFile;
  loading : bool
}.

Definition initial : State := {| video := None; loading := true |}.

(** [urlParts[urlParts.length - 1]] of [s.split("/")], as a string. *)
Definition last_part (s : jsstring) : jsstring :=
  interpolate (last (split_on (cu "/") s)).

(** The record made from a URL (lines 33-42 and 50-59). *)
Definition video_of_url (u : jsstring) : completion UploadedFile :=
  let fileName := last_part u in
  decodedFileName ← URI.decodeURIComponent fileName;
  mret {| id := u; url := u; name := decodedFileName;
          type := Some (js "video") |}.

(** The three predicates given to [files.find]. *)
Definition by_id (videoId : jsstring) (f : UploadedFile) : bool :=
  str_eqb (id f) videoId && type_is_video f.

Definition by_url (videoId : jsstring) (f : UploadedFile) : bool :=
  type_is_video f
  && (str_eqb (url f) videoId
      || includes (url f) videoId
      || includes videoId (or_empty (last (split_on (cu "/") (url f))))).

Definition by_fileName (fileName : jsstring) (f : UploadedFile) : bool :=
  type_is_video f && includes (url f) fileName.

(** Lines 69-89. *)
Definition find_video (files : list UploadedFile) (videoId : jsstring)
  : option UploadedFile :=
  let foundVideo := List.find (by_id videoId) files in
  let foundVideo :=
    match foundVideo with
    | None => List.find (by_url videoId) files
    | Some _ => foundVideo
    end in
  match foundVideo with
  | None => List.find (by_fileName (last_part videoId)) files
  | Some _ => foundVideo
  end.

Definition setVideo (v : UploadedFile) (st : State) : State :=
  {| video := Some v; loading := loading st |}.

Definition setLoading (b : bool) (st : State) : State :=
  {| video := video st; loading := b |}.

(** The part of the effect after the test of [urlParam] (lines 47-98). *)
Definition effect_by_id
    (JSON_parse : jsstring -> completion (list UploadedFile))
    (stored : option jsstring) (videoId : jsstring) (st : State)
  : completion State :=
  decodedId ← URI.decodeURIComponent videoId;
  if startsWith decodedId (js "http://") || startsWith decodedId (js "https://")
  then
    v ← video_of_url decodedId;
    mret (setLoading false (setVideo v st))
  else
    let st :=
      match stored with
      | Some text =>
          if truthy_str text then
            match JSON_parse text with
            | Normal files =>
                match find_video files videoId with
                | Some foundVideo => setVideo foundVideo st
                | None => st
                end
            | Throw _ => st
            end
          else st
      | None => st
      end in
    mret (setLoading false st).

(** The effect on [videoId, urlParam]. *)
Definition effect
    (JSON_parse : jsstring -> completion (list UploadedFile))
    (ls : Storage) (videoId : jsstring) (urlParam : option jsstring)
    (st : State) : completion State :=
  let stored := ls !! STORAGE_KEY in
  match urlParam with
  | Some u =>
      if truthy_str u then
        v ← video_of_url u;
        mret (setLoading false (setVideo v st))
      else effect_by_id JSON_parse stored videoId st
  | None => effect_by_id JSON_parse stored videoId st
  end.

Inductive View : Type :=
| Loading
| NotInGallery (videoId : jsstring)
| NotFound
| Watch (href : jsstring) (player : VideoPlayer.Props) (heading : jsstring)
    (shownId : jsstring).

Definition render (videoId : jsstring) (st : State) : View :=
  if loading st then Loading
  else
    match video st with
    | None =>
        let isLikelyVideoUrl :=
          includes videoId (js ".mp4") || includes videoId (js ".webm")
          || includes videoId (js ".mov") || startsWith videoId (js "http") in
        if isLikelyVideoUrl && negb (startsWith videoId (js "http"))
        then NotInGallery videoId
        else NotFound
    | Some v =>
        Watch (url v)
          {| VideoPlayer.url := url v;
             VideoPlayer.thumbnail := None;
             VideoPlayer.className := js "w-full";
             VideoPlayer.name := Some (name v);
             VideoPlayer.autoPlay := true |}
          (name v) (id v)
    end.

End VideoViewPage.

(** ** Vocabulary of the further statements *)

Module Outcome.

Import UploadRoute.

Definition is_digit (c : N) : bool := (cu "0" <=? c) && (c <=? cu "9").

(** The request body that the two upload components send. *)
Definition upload_of (file : File) : NextRequest :=
  {| request_formData := Normal [(js "file", EFile file)] |}.

(** The file passes the validations, can be read, and the store accepts
    the write. *)
Definition stored (w : World) (file : File) : Prop :=
  ~ Spec.unsupported_type file
  /\ File_size file <= Spec.size_limit file
  /\ exists buffer,
       File_arrayBuffer file = Normal buffer
       /\ s3Client_send w (Paths.command_for w file buffer) = Normal tt.

(** What the client is told when the upload is not stored. *)
Definition refusal (w : World) (file : File) : jsstring :=
  if negb (isImage_of file) && negb (isVideo_of file)
  then js "Unsupported file type. Only images and videos are allowed."
  else if Spec.size_limit file <? File_size file then Spec.size_message file
  else js "Failed to upload file".

(** The code units a generated key is made of. *)
Definition key_char (c : N) : bool :=
  is_digit c || (c =? cu "-") || Spec.safe_char c.

(** No record of the list has this id. *)
Definition fresh_id (fileId : jsstring) (files : list UploadedFile) : Prop :=
  Forall (fun f => id f <> fileId) files.

End Outcome.

(** ** Further sample inputs *)

Module Cases.

Import UploadRoute.

(** A file whose bytes cannot be read. *)
Definition torn : File :=
  {| File_name := js "torn.png"; File_type := js "image/png";
     File_size := 4;
     File_arrayBuffer := Throw (RejectedWith "NotReadableError") |}.

End Cases.

(** * Properties of the upload handler *)

Import UploadRoute.

Ltac run_io :=
  unfold run_POST, POST, POST_try, try_catch, s3Client_send_command, as_File,
    await, perform, throw, mbind, IO_bind, mret, IO_ret, NextResponse_json;
  cbn [default status body fst snd app].

Lemma size_message_eq (f : File) :
  js "File size exceeds " ++ (if isVideo_of f then js "500MB" else js "10MB")
    ++ js " limit" = Spec.size_message f.
Proof.
  unfold Spec.size_message, isVideo_of.
  destruct (startsWith (File_type f) (js "video/")); reflexivity.
Qed.

Lemma supported_guard (f : File) :
  isImage_of f || isVideo_of f = true ->
  negb (isImage_of f) && negb (isVideo_of f) = false.
Proof. destruct (isImage_of f), (isVideo_of f); done. Qed.

(** Every path is a run of the [try] block. *)
Lemma try_path_sound (w : World) (req : NextRequest) out log :
  Paths.try_path w req out log -> POST_try w req [] = (out, log).
Proof.
  intros Hpath; destruct Hpath as
    [ e Hfd | fd Hfd Hno | fd s Hfd Hget Hs | fd f Hfd Hget Hi Hv
    | fd f Hfd Hget Hsup Hlt | fd f e Hfd Hget Hsup Hle Hbuf
    | fd f buffer e Hfd Hget Hsup Hle Hbuf Hsend
    | fd f buffer Hfd Hget Hsup Hle Hbuf Hsend ];
    run_io; rewrite Hfd; cbn.
  - reflexivity.
  - rewrite Hno. reflexivity.
  - rewrite Hget; cbn. rewrite Hs. reflexivity.
  - rewrite Hget; cbn. rewrite Hi, Hv. reflexivity.
  - rewrite Hget; cbn. rewrite (supported_guard f Hsup).
    apply N.ltb_lt in Hlt. rewrite Hlt, size_message_eq. reflexivity.
  - rewrite Hget; cbn. rewrite (supported_guard f Hsup).
    apply N.ltb_ge in Hle. rewrite Hle, Hbuf. reflexivity.
  - rewrite Hget; cbn. rewrite (supported_guard f Hsup).
    apply N.ltb_ge in Hle. rewrite Hle, Hbuf.
    fold (Paths.command_for w f buffer). rewrite Hsend. reflexivity.
  - rewrite Hget; cbn. rewrite (supported_guard f Hsup).
    apply N.ltb_ge in Hle. rewrite Hle, Hbuf.
    fold (Paths.command_for w f buffer). rewrite Hsend. reflexivity.
Qed.

(** Every request takes some path. *)
Lemma try_path_total (w : World) (req : NextRequest) :
  exists out log, Paths.try_path w req out log.
Proof.
  destruct (request_formData req) as [fd|e] eqn:Hfd;
    [|eauto using Paths.formData_rejects].
  destruct (FormData_get fd (js "file")) as [[f|s]|] eqn:Hget.
  - destruct (isImage_of f || isVideo_of f) eqn:Hsup.
    + destruct (N.lt_ge_cases (maxSize_of (isVideo_of f)) (File_size f))
        as [Hlt|Hle]; [eauto using Paths.file_too_large|].
      destruct (File_arrayBuffer f) as [buffer|e] eqn:Hbuf;
        [|eauto using Paths.read_rejects].
      destruct (s3Client_send w (Paths.command_for w f buffer))
        as [[]|e] eqn:Hsend;
        eauto using Paths.stored, Paths.send_rejects.
    + apply orb_false_iff in Hsup as [Hi Hv].
      eauto using Paths.type_unsupported.
  - destruct (truthy_str s) eqn:Hs; [eauto using Paths.entry_is_text|].
    eexists _, _. eapply Paths.file_missing; [done|]. by rewrite Hget.
  - eexists _, _. eapply Paths.file_missing; [done|]. by rewrite Hget.
Qed.

(** The completion of the [try] block determines its path. *)
Lemma try_path_complete (w : World) (req : NextRequest) out log :
  POST_try w req [] = (out, log) -> Paths.try_path w req out log.
Proof.
  intros Hrun. destruct (try_path_total w req) as (out' & log' & Hpath).
  rewrite (try_path_sound _ _ _ _ Hpath) in Hrun. by simplify_eq.
Qed.

(** [POST] is its [try] block followed by the [catch] clause. *)
Lemma run_POST_caught (w : World) (req : NextRequest) :
  run_POST w req = Paths.caught (POST_try w req []).
Proof.
  unfold run_POST, POST, try_catch, Paths.caught.
  destruct (POST_try w req []) as [[resp|e] log]; reflexivity.
Qed.

(** The handler never throws. *)
Lemma POST_answers (w : World) (req : NextRequest) :
  exists resp log, run_POST w req = (Normal resp, log).
Proof.
  rewrite run_POST_caught.
  destruct (POST_try w req []) as [[resp|e] log]; cbn; eauto.
Qed.

(** Two facts about the same observation are merged. *)
Ltac same_reads :=
  repeat match goal with
    | H1 : ?t = _, H2 : ?t = _ |- _ => rewrite H1 in H2; simplify_eq
    end.

(** Case analysis on the path that a request takes. *)
Ltac by_path w req Hpath :=
  let out := fresh "out" in
  let log := fresh "log" in
  let Hrun := fresh "Hrun" in
  destruct (try_path_total w req) as (out & log & Hpath);
  pose proof (try_path_sound w req out log Hpath) as Hrun;
  rewrite ?run_POST_caught, ?Hrun;
  clear Hrun;
  destruct Hpath as
    [ e Hfd | fd Hfd Hno | fd s Hfd Hget Hs | fd f Hfd Hget Hi Hv
    | fd f Hfd Hget Hsup Hlt | fd f e Hfd Hget Hsup Hle Hbuf
    | fd f buffer e Hfd Hget Hsup Hle Hbuf Hsend
    | fd f buffer Hfd Hget Hsup Hle Hbuf Hsend ];
  cbn [Paths.caught app fst snd].

Lemma size_limit_maxSize (f : File) :
  Spec.size_limit f = maxSize_of (isVideo_of f).
Proof. reflexivity. Qed.

Lemma supported_not_unsupported (f : File) :
  isImage_of f || isVideo_of f = true <-> ~ Spec.unsupported_type f.
Proof.
  unfold Spec.unsupported_type, isImage_of, isVideo_of.
  destruct (startsWith (File_type f) (js "image/")),
           (startsWith (File_type f) (js "video/")); cbn;
    (split; [intros Hs [Hi Hv]|intros Hs]; try done).
  exfalso. by apply Hs.
Qed.

(** C1: when a validation fails (no "file" entry, a MIME type that starts
    with neither "image/" nor "video/", or a size above the limit) the
    handler answers 400 and has no effect at all, so no object-store write
    is issued; and whenever a write is issued, the request carries a file
    that passed every validation. *)
Theorem validation_failure_blocks_store (w : World) (req : NextRequest) :
  (forall fd,
      request_formData req = Normal fd -> Spec.validation_fails fd ->
      exists resp, run_POST w req = (Normal resp, []) /\ status resp = 400)
  /\ (forall cmd,
         In cmd (sends (run_POST w req).2) ->
         exists f, Spec.validations_passed req f).
Proof.
  split.
  - intros fd0 Hfd0 Hfail.
    by_path w req Hpath; same_reads; try (eexists; split; [done|done]);
      exfalso; destruct Hfail as [Hnone|(f0 & Hf0 & Hbad)];
      unfold Spec.no_file_entry in *; same_reads.
    all: destruct Hbad as [Hun|Hbig];
      [ by apply supported_not_unsupported in Hun
      | rewrite size_limit_maxSize in Hbig; lia ].
  - intros cmd.
    by_path w req Hpath; cbn; try tauto.
    all: intros _; exists f, fd;
      by rewrite <- supported_not_unsupported, size_limit_maxSize.
Qed.

Lemma validation_failure_blocks_store_witness :
  (exists resp,
      run_POST Sample.world Sample.no_file = (Normal resp, [])
      /\ status resp = 400)
  /\ (exists f, Spec.validations_passed (Sample.upload Sample.mp4) f).
Proof.
  split.
  - apply (proj1 (validation_failure_blocks_store Sample.world Sample.no_file)
             [(js "note", EString (js "hello"))] eq_refl).
    left. reflexivity.
  - apply (proj2 (validation_failure_blocks_store Sample.world
                    (Sample.upload Sample.mp4))
             (Paths.command_for Sample.world Sample.mp4
                {| byteLength := 500 * 1024 * 1024;
                   byteAt := fun _ => Byte.x00 |})).
    left. reflexivity.
Defined.

Lemma size_message_not_unsupported (f : File) :
  ErrorBody (Spec.size_message f) <> body Spec.unsupported_response.
Proof.
  unfold Spec.size_message.
  destruct (startsWith (File_type f) (js "video/")); vm_compute; discriminate.
Qed.

(** C2: the answer is status 400 with the message "Unsupported file type.
    Only images and videos are allowed." exactly when the form data holds a
    file whose MIME type starts with neither "video/" nor "image/". *)
Theorem unsupported_type_response (w : World) (req : NextRequest) :
  exists resp log,
    run_POST w req = (Normal resp, log)
    /\ (status resp = 400
        /\ body resp
           = ErrorBody (js "Unsupported file type. Only images and videos are allowed.")
        <-> exists fd f,
              request_formData req = Normal fd
              /\ FormData_get fd (js "file") = Some (EFile f)
              /\ startsWith (File_type f) (js "video/") = false
              /\ startsWith (File_type f) (js "image/") = false).
Proof.
  by_path w req Hpath; eexists _, _; (split; [reflexivity|]).
  4: { split; [intros _; exists fd, f; done|done]. }
  all: split;
    [ intros [Hst Hbody]; cbn in Hst, Hbody; try discriminate Hst;
      try (by apply size_message_not_unsupported in Hbody);
      try (vm_compute in Hbody; discriminate Hbody)
    | intros (fd0 & f0 & Hfd0 & Hget0 & Hv0 & Hi0); exfalso; same_reads;
      try done ].
  all: try (rewrite Hget0 in Hno; discriminate Hno).
  all: unfold isImage_of, isVideo_of in Hsup;
    rewrite Hv0, Hi0 in Hsup; discriminate Hsup.
Qed.

Lemma unsupported_type_response_witness :
  exists resp log,
    run_POST Sample.world (Sample.upload Sample.pdf) = (Normal resp, log)
    /\ status resp = 400
    /\ body resp
       = ErrorBody (js "Unsupported file type. Only images and videos are allowed.").
Proof.
  destruct (unsupported_type_response Sample.world (Sample.upload Sample.pdf))
    as (resp & log & Hrun & Hiff).
  exists resp, log. split; [exact Hrun|].
  apply Hiff.
  exists [(js "file", EFile Sample.pdf)], Sample.pdf.
  repeat split; reflexivity.
Defined.

Example image_one_byte_over_limit :
  run_POST Sample.world (Sample.upload Sample.big_png)
  = (Normal {| status := 400;
               body := ErrorBody (js "File size exceeds 10MB limit") |}, []).
Proof. reflexivity. Qed.

Example text_entry_named_file :
  run_POST Sample.world Sample.text_field
  = (Normal Spec.response500, [Paths.logged Paths.not_a_file]).
Proof. reflexivity. Qed.

(** C3: for a present file of a supported type, the handler answers 400
    exactly when the size is strictly above 500*1024*1024 bytes (MIME type
    starting with "video/") or 10*1024*1024 bytes (otherwise), with the
    message "File size exceeds 500MB limit" or "File size exceeds 10MB
    limit"; a file of exactly the limit is not rejected. *)
Theorem size_validation (w : World) (req : NextRequest) (fd0 : FormData)
    (f0 : File) :
  request_formData req = Normal fd0 ->
  FormData_get fd0 (js "file") = Some (EFile f0) ->
  ~ Spec.unsupported_type f0 ->
  exists resp log,
    run_POST w req = (Normal resp, log)
    /\ (status resp = 400 <-> Spec.size_limit f0 < File_size f0)
    /\ (Spec.size_limit f0 < File_size f0 ->
        resp = {| status := 400; body := ErrorBody (Spec.size_message f0) |}
        /\ log = [])
    /\ (File_size f0 = Spec.size_limit f0 -> status resp <> 400).
Proof.
  intros Hfd0 Hget0 Hsup0. apply supported_not_unsupported in Hsup0.
  rewrite size_limit_maxSize.
  by_path w req Hpath; same_reads; try done.
  - exfalso. rewrite Hget0 in Hno. discriminate Hno.
  - exfalso. rewrite Hi, Hv in Hsup0. discriminate Hsup0.
  - eexists _, _. split; [reflexivity|].
    unfold Paths.too_large_response; cbn [status].
    repeat split; intros; try done; lia.
  - eexists _, _. split; [reflexivity|].
    unfold Spec.response500; cbn [status].
    repeat split; intros; try done; try lia.
  - eexists _, _. split; [reflexivity|].
    unfold Spec.response500; cbn [status].
    repeat split; intros; try done; try lia.
  - eexists _, _. split; [reflexivity|].
    unfold Paths.success_response; cbn [status].
    repeat split; intros; try done; try lia.
Qed.

Lemma size_validation_witness :
  exists resp log,
    run_POST Sample.world (Sample.upload Sample.png) = (Normal resp, log)
    /\ (status resp = 400 <-> 10 * 1024 * 1024 < File_size Sample.png)
    /\ (10 * 1024 * 1024 < File_size Sample.png ->
        resp = {| status := 400;
                  body := ErrorBody (js "File size exceeds 10MB limit") |}
        /\ log = [])
    /\ (File_size Sample.png = 10 * 1024 * 1024 -> status resp <> 400).
Proof.
  apply (size_validation Sample.world (Sample.upload Sample.png)
           [(js "file", EFile Sample.png)] Sample.png eq_refl eq_refl).
  intros [Hi Hv]. vm_compute in Hi. discriminate Hi.
Defined.

(** * The generated object key *)

(** A boolean fact checked on every code unit below [n] holds below [n]. *)
Lemma checked_below (P : N -> bool) (n : nat) :
  forallb P (map N.of_nat (seq 0 n)) = true ->
  forall c, c < N.of_nat n -> P c = true.
Proof.
  intros Hall c Hc.
  rewrite forallb_forall in Hall. apply Hall.
  apply in_map_iff. exists (N.to_nat c). split; [lia|].
  apply in_seq. lia.
Qed.

Lemma existsb_eqb_above (l : jsstring) (bound c : N) :
  forallb (fun k => k <? bound) l = true -> bound <= c ->
  existsb (N.eqb c) l = false.
Proof.
  intros Hall Hc. induction l as [|k l IH]; [reflexivity|].
  cbn in Hall |- *. apply andb_true_iff in Hall as [Hk Hl].
  apply N.ltb_lt in Hk.
  rewrite (IH Hl), orb_false_r. apply N.eqb_neq. lia.
Qed.

(** The class [[^a-zA-Z0-9.-]] matches exactly the code units outside the
    alphabet of letters, digits, "." and "-". *)
Lemma unsafe_class_alphabet (c : N) :
  class_matches unsafe_name_chars c = negb (Spec.in_name_alphabet c).
Proof.
  destruct (N.lt_ge_cases c 128) as [Hlt|Hge].
  - apply Bool.eqb_prop.
    apply (checked_below
             (fun c => Bool.eqb (class_matches unsafe_name_chars c)
                         (negb (Spec.in_name_alphabet c))) 128);
      [vm_compute; reflexivity|exact Hlt].
  - unfold Spec.in_name_alphabet.
    rewrite (existsb_eqb_above Spec.name_alphabet 128 c);
      [|vm_compute; reflexivity|exact Hge].
    unfold class_matches, unsafe_name_chars; cbn [negated items existsb item_matches].
    assert (Hcu : forall a, cu a < 256).
    { intros a. unfold cu. pose proof (N_ascii_bounded a). lia. }
    replace (c <=? cu "z") with false by (symmetry; apply N.leb_gt; vm_compute cu; lia).
    replace (c <=? cu "Z") with false by (symmetry; apply N.leb_gt; vm_compute cu; lia).
    replace (c <=? cu "9") with false by (symmetry; apply N.leb_gt; vm_compute cu; lia).
    replace (c =? cu ".") with false by (symmetry; apply N.eqb_neq; vm_compute cu; lia).
    replace (c =? cu "-") with false by (symmetry; apply N.eqb_neq; vm_compute cu; lia).
    rewrite !andb_false_r. reflexivity.
Qed.

(** [name.replace(/[^a-zA-Z0-9.-]/g, "_")] replaces code unit by code unit. *)
Lemma replace_is_sanitized (name : jsstring) :
  replace_class_g unsafe_name_chars (js "_") name = Spec.sanitized name.
Proof.
  unfold replace_class_g, Spec.sanitized.
  induction name as [|c name IH]; [reflexivity|].
  cbn [flat_map map]. rewrite IH, unsafe_class_alphabet.
  destruct (Spec.in_name_alphabet c); reflexivity.
Qed.

Lemma sanitized_safe (name : jsstring) :
  forallb Spec.safe_char (Spec.sanitized name) = true.
Proof.
  unfold Spec.sanitized. induction name as [|c name IH]; [reflexivity|].
  cbn [map forallb]. rewrite IH, andb_true_r.
  unfold Spec.safe_char. destruct (Spec.in_name_alphabet c) eqn:Hc.
  - by rewrite Hc.
  - reflexivity.
Qed.

Lemma sanitized_length (name : jsstring) :
  length (Spec.sanitized name) = length name.
Proof. unfold Spec.sanitized. by rewrite length_map. Qed.

Lemma fileName_of_sanitized (w : World) (f : File) :
  fileName_of w f
  = Number_toString (Date_now w) ++ js "-" ++ Spec.sanitized (File_name f).
Proof. unfold fileName_of. by rewrite replace_is_sanitized. Qed.

(** C4: for a file that passes the validations, the key of every
    object-store write and the [fileName] of a success response are the
    decimal timestamp, a hyphen, and the original name with every code unit
    outside [a-zA-Z0-9.-] replaced by an underscore; that last part has the
    length of the original name and holds only letters, digits, ".", "-"
    and "_".  When the file can be read, exactly one write is issued. *)
Theorem stored_key_format (w : World) (req : NextRequest) (f0 : File) :
  Spec.validations_passed req f0 ->
  exists resp log,
    run_POST w req = (Normal resp, log)
    /\ (forall cmd, In cmd (sends log) ->
        Key cmd = Number_toString (Date_now w) ++ js "-"
                    ++ Spec.sanitized (File_name f0))
    /\ (forall success url fileName type,
          body resp = SuccessBody success url fileName type ->
          fileName = Number_toString (Date_now w) ++ js "-"
                       ++ Spec.sanitized (File_name f0))
    /\ (forall buffer, File_arrayBuffer f0 = Normal buffer ->
        exists cmd, sends log = [cmd])
    /\ length (Spec.sanitized (File_name f0)) = length (File_name f0)
    /\ forallb Spec.safe_char (Spec.sanitized (File_name f0)) = true.
Proof.
  intros (fd0 & Hfd0 & Hget0 & Hsup0 & Hsize0).
  apply supported_not_unsupported in Hsup0.
  rewrite size_limit_maxSize in Hsize0.
  by_path w req Hpath; same_reads; try done.
  - exfalso. rewrite Hget0 in Hno. discriminate Hno.
  - exfalso. rewrite Hi, Hv in Hsup0. discriminate Hsup0.
  - exfalso. lia.
  - eexists _, _. split; [reflexivity|]. cbn [sends omap].
    repeat split; intros; try done; try congruence;
      auto using sanitized_length, sanitized_safe.
  - eexists _, _. split; [reflexivity|]. cbn.
    repeat split; intros;
      auto using sanitized_length, sanitized_safe; try done.
    + destruct H as [<-|[]]. apply fileName_of_sanitized.
    + eauto.
  - eexists _, _. split; [reflexivity|]. cbn.
    repeat split; intros;
      auto using sanitized_length, sanitized_safe; try done.
    + destruct H as [<-|[]]. apply fileName_of_sanitized.
    + simplify_eq. apply fileName_of_sanitized.
    + eauto.
Qed.

Lemma stored_key_format_witness :
  exists resp log,
    run_POST Sample.world (Sample.upload Sample.png) = (Normal resp, log)
    /\ (forall cmd, In cmd (sends log) ->
        Key cmd = js "1730000000000-my_cat__1_.png")
    /\ (forall success url fileName type,
          body resp = SuccessBody success url fileName type ->
          fileName = js "1730000000000-my_cat__1_.png")
    /\ (forall buffer, File_arrayBuffer Sample.png = Normal buffer ->
        exists cmd, sends log = [cmd])
    /\ length (Spec.sanitized (File_name Sample.png))
       = length (File_name Sample.png)
    /\ forallb Spec.safe_char (Spec.sanitized (File_name Sample.png)) = true.
Proof.
  apply (stored_key_format Sample.world (Sample.upload Sample.png) Sample.png).
  exists [(js "file", EFile Sample.png)].
  split; [reflexivity|]. split; [reflexivity|]. split.
  - intros [Hi Hv]. vm_compute in Hi. discriminate Hi.
  - vm_compute. discriminate.
Defined.

(** * Content type, success response, failures *)

Lemma supported_type_nonempty (f : File) :
  ~ Spec.unsupported_type f -> File_type f <> [].
Proof.
  intros Hsup Hempty. apply Hsup. unfold Spec.unsupported_type.
  rewrite Hempty. split; reflexivity.
Qed.

Lemma contentType_nonempty (f : File) (isVideo : bool) :
  File_type f <> [] -> contentType_of f isVideo = File_type f.
Proof.
  unfold contentType_of. destruct (File_type f); [congruence|reflexivity].
Qed.

(** C5: for a file accepted by the type validation the content type is
    the file's MIME type, which is not empty; the "video/mp4" /
    "image/jpeg" fallback is taken only for the empty MIME type; and every
    object-store write carries the MIME type of a file that passed the
    validations. *)
Theorem content_type_is_mime_type (w : World) (req : NextRequest) :
  (forall f,
      ~ Spec.unsupported_type f ->
      File_type f <> [] /\ contentType_of f (isVideo_of f) = File_type f)
  /\ (forall f isVideo,
         contentType_of f isVideo <> File_type f ->
         File_type f = []
         /\ contentType_of f isVideo
            = if isVideo then js "video/mp4" else js "image/jpeg")
  /\ (forall cmd,
         In cmd (sends (run_POST w req).2) ->
         exists f, Spec.validations_passed req f
                   /\ ContentType cmd = File_type f).
Proof.
  split; [|split].
  - intros f Hsup. pose proof (supported_type_nonempty f Hsup) as Hne.
    split; [exact Hne|by apply contentType_nonempty].
  - intros f isVideo Hdiff. unfold contentType_of in *.
    destruct (File_type f); [done|]. cbn in Hdiff. congruence.
  - intros cmd.
    by_path w req Hpath; cbn; try tauto.
    all: intros [<-|[]]; exists f; split;
      [ exists fd; by rewrite <- supported_not_unsupported, size_limit_maxSize
      | apply contentType_nonempty, supported_type_nonempty;
        by apply supported_not_unsupported ].
Qed.

Lemma content_type_is_mime_type_witness :
  (File_type Sample.mp4 <> []
   /\ contentType_of Sample.mp4 (isVideo_of Sample.mp4) = js "video/mp4")
  /\ (exists f, Spec.validations_passed (Sample.upload Sample.png) f
                /\ js "image/png" = File_type f).
Proof.
  split.
  - apply (proj1 (content_type_is_mime_type Sample.world (Sample.upload Sample.mp4))
             Sample.mp4).
    intros [Hi Hv]. vm_compute in Hv. discriminate Hv.
  - apply (proj2 (proj2 (content_type_is_mime_type Sample.world
                           (Sample.upload Sample.png)))
             (Paths.command_for Sample.world Sample.png
                {| byteLength := 10 * 1024 * 1024;
                   byteAt := fun _ => Byte.x00 |})).
    left. reflexivity.
Defined.

Lemma fileUrl_of_nonempty (w : World) (fileName : jsstring) :
  fileUrl_of w fileName = Spec.url_when_nonempty w fileName.
Proof.
  unfold fileUrl_of, Spec.url_when_nonempty.
  destruct (env w !! "R2_PUBLIC_URL"%string) as [[|c r2]|]; reflexivity.
Qed.

(** C6, as stated, fails: with [R2_PUBLIC_URL] set to the empty string the
    store write succeeds and the returned [url] is built from
    [AWS_S3_API_URL], not from [R2_PUBLIC_URL]. *)
Lemma success_url_set_but_empty :
  env Sample.world_empty_public_url !! "R2_PUBLIC_URL"%string = Some []
  /\ exists fileName log,
       run_POST Sample.world_empty_public_url (Sample.upload Sample.png)
       = (Normal
            {| status := 200;
               body := SuccessBody true
                         (js "https://acct.r2.cloudflarestorage.com/media/1730000000000-my_cat__1_.png")
                         fileName (js "image") |},
          log)
       /\ sends log <> []
       /\ Spec.url_when_set Sample.world_empty_public_url fileName
          = js "/media/1730000000000-my_cat__1_.png"
       /\ js "https://acct.r2.cloudflarestorage.com/media/1730000000000-my_cat__1_.png"
          <> Spec.url_when_set Sample.world_empty_public_url fileName.
Proof.
  split; [reflexivity|].
  eexists _, _. split; [vm_compute; reflexivity|].
  split; [vm_compute; discriminate|].
  split; [vm_compute; reflexivity|].
  vm_compute. discriminate.
Qed.

(** C6, amended: when the store write succeeds the handler answers 200 with
    [success] true, [fileName] the generated key, [type] "video" for a MIME
    type starting with "video/" and "image" otherwise, and [url] built from
    [R2_PUBLIC_URL] when that variable is set to a non-empty string and
    from [AWS_S3_API_URL] when it is unset or empty. *)
Theorem success_response_shape (w : World) (req : NextRequest) (f0 : File)
    (buffer0 : ArrayBuffer) :
  Spec.validations_passed req f0 ->
  File_arrayBuffer f0 = Normal buffer0 ->
  s3Client_send w (Paths.command_for w f0 buffer0) = Normal tt ->
  let key := Key (Paths.command_for w f0 buffer0) in
  run_POST w req
  = (Normal
       {| status := 200;
          body := SuccessBody true (Spec.url_when_nonempty w key) key
                    (if startsWith (File_type f0) (js "video/")
                     then js "video" else js "image") |},
     [S3Send (Paths.command_for w f0 buffer0)]).
Proof.
  intros (fd0 & Hfd0 & Hget0 & Hsup0 & Hsize0) Hbuf0 Hsend0 key.
  apply supported_not_unsupported in Hsup0.
  rewrite size_limit_maxSize in Hsize0.
  rewrite run_POST_caught.
  rewrite (try_path_sound w req _ _
             (Paths.stored w req fd0 f0 buffer0 Hfd0 Hget0 Hsup0 Hsize0 Hbuf0 Hsend0)).
  cbn [Paths.caught]. unfold Paths.success_response, key.
  cbn [Key Paths.command_for]. by rewrite fileUrl_of_nonempty.
Qed.

Lemma success_response_shape_witness :
  run_POST Sample.world (Sample.upload Sample.mp4)
  = (Normal
       {| status := 200;
          body := SuccessBody true
                    (js "https://pub-1.r2.dev/media/1730000000000-clip.mp4")
                    (js "1730000000000-clip.mp4") (js "video") |},
     [S3Send (Paths.command_for Sample.world Sample.mp4
                {| byteLength := 500 * 1024 * 1024;
                   byteAt := fun _ => Byte.x00 |})]).
Proof.
  apply (success_response_shape Sample.world (Sample.upload Sample.mp4)
           Sample.mp4
           {| byteLength := 500 * 1024 * 1024; byteAt := fun _ => Byte.x00 |}).
  - exists [(js "file", EFile Sample.mp4)].
    split; [reflexivity|]. split; [reflexivity|]. split.
    + intros [Hi Hv]. vm_compute in Hv. discriminate Hv.
    + vm_compute. discriminate.
  - reflexivity.
  - reflexivity.
Defined.

Lemma sends_app (l1 l2 : list Effect) : sends (l1 ++ l2) = sends l1 ++ sends l2.
Proof. unfold sends. apply omap_app. Qed.

(** No path issues the store write twice. *)
Lemma try_path_sends_once (w : World) (req : NextRequest) out log :
  Paths.try_path w req out log -> (length (sends log) <= 1)%nat.
Proof. intros Hpath; destruct Hpath; cbn; lia. Qed.

(** C7: if the [try] block throws, the handler logs the error and answers
    500 with the message "Failed to upload file"; that log line is its only
    reaction, and the store write was issued at most once.  In particular a
    rejected [s3Client.send] gives exactly one write followed by the log
    line.  Conversely the answer is 500 only when something has thrown. *)
Theorem throw_gives_500 (w : World) (req : NextRequest) :
  (forall e log,
      POST_try w req [] = (Throw e, log) ->
      run_POST w req
      = (Normal {| status := 500;
                   body := ErrorBody (js "Failed to upload file") |},
         log ++ [ConsoleError (js "Upload error:") e])
      /\ (length (sends log) <= 1)%nat)
  /\ (forall f buffer e,
         Spec.validations_passed req f ->
         File_arrayBuffer f = Normal buffer ->
         s3Client_send w (Paths.command_for w f buffer) = Throw e ->
         run_POST w req
         = (Normal {| status := 500;
                      body := ErrorBody (js "Failed to upload file") |},
            [S3Send (Paths.command_for w f buffer);
             ConsoleError (js "Upload error:") e]))
  /\ (forall resp log,
         run_POST w req = (Normal resp, log) ->
         (length (sends log) <= 1)%nat
         /\ (status resp = 500 <->
             exists e log', POST_try w req [] = (Throw e, log'))).
Proof.
  split; [|split].
  - intros e log Htry. rewrite run_POST_caught, Htry. split; [reflexivity|].
    eapply try_path_sends_once, try_path_complete, Htry.
  - intros f buffer e (fd & Hfd & Hget & Hsup & Hsize) Hbuf Hsend.
    apply supported_not_unsupported in Hsup.
    rewrite size_limit_maxSize in Hsize.
    rewrite run_POST_caught.
    by rewrite (try_path_sound w req _ _
                  (Paths.send_rejects w req fd f buffer e
                     Hfd Hget Hsup Hsize Hbuf Hsend)).
  - intros resp log. rewrite run_POST_caught.
    destruct (POST_try w req []) as [[r|e] l] eqn:Htry; cbn [Paths.caught];
      intros Heq; simplify_eq;
      pose proof (try_path_complete w req _ _ Htry) as Hpath;
      pose proof (try_path_sends_once w req _ _ Hpath) as Honce.
    + split; [exact Honce|]. split.
      * intros Hst. exfalso.
        inversion Hpath; subst; cbn in Hst; discriminate Hst.
      * intros (e & log' & Hthrow). discriminate Hthrow.
    + split.
      * rewrite sends_app, length_app. cbn. lia.
      * split; [eauto|reflexivity].
Qed.

Lemma throw_gives_500_witness :
  run_POST Sample.world_store_down (Sample.upload Sample.mp4)
  = (Normal {| status := 500;
               body := ErrorBody (js "Failed to upload file") |},
     [S3Send (Paths.command_for Sample.world_store_down Sample.mp4
                {| byteLength := 500 * 1024 * 1024;
                   byteAt := fun _ => Byte.x00 |});
      ConsoleError (js "Upload error:") (RejectedWith "ServiceUnavailable")])
  /\ (run_POST Sample.world Sample.text_field
      = (Normal {| status := 500;
                   body := ErrorBody (js "Failed to upload file") |},
         [] ++ [ConsoleError (js "Upload error:") Paths.not_a_file])
      /\ (length (sends []) <= 1)%nat).
Proof.
  split.
  - apply (proj1 (proj2 (throw_gives_500 Sample.world_store_down
                           (Sample.upload Sample.mp4)))
             Sample.mp4
             {| byteLength := 500 * 1024 * 1024; byteAt := fun _ => Byte.x00 |}
             (RejectedWith "ServiceUnavailable")).
    + exists [(js "file", EFile Sample.mp4)].
      split; [reflexivity|]. split; [reflexivity|]. split.
      * intros [Hi Hv]. vm_compute in Hv. discriminate Hv.
      * vm_compute. discriminate.
    + reflexivity.
    + reflexivity.
  - apply (proj1 (throw_gives_500 Sample.world Sample.text_field)
             Paths.not_a_file []).
    reflexivity.
Defined.

(** * The uploaded-file list and local storage *)

(** A quotation mark, a line feed, a backslash, a surrogate pair and a lone
    trailing surrogate. *)
Example quote_units_escapes :
  JSON.quote_units [34; 10; 92; 55357; 56832; 56832]
  = [92; 34] ++ js "\n" ++ js "\\" ++ [55357; 56832] ++ js "\ude00".
Proof. reflexivity. Qed.

Example stringify_empty : JSON.stringify [] = js "[]".
Proof. reflexivity. Qed.

Lemma store_files_mirrors (files : list UploadedFile) (ls : Storage) :
  Spec.mirrors (store_files files ls) files.
Proof.
  unfold Spec.mirrors, store_files. destruct files as [|f files]; cbn.
  - apply lookup_delete_eq.
  - apply lookup_insert_eq.
Qed.

Lemma store_files_other (files : list UploadedFile) (ls : Storage)
    (k : jsstring) :
  k <> STORAGE_KEY -> store_files files ls !! k = ls !! k.
Proof.
  intros Hk. unfold store_files. destruct (0 <? length files)%nat.
  - by rewrite lookup_insert_ne.
  - by rewrite lookup_delete_ne.
Qed.

(** The page's list and the storage key stay in step along any sequence of
    events, failed uploads included. *)
Lemma mirrors_invariant (st : UploadPage.State) (evs : list UploadPage.Event) :
  Spec.mirrors (UploadPage.localStorage st) (UploadPage.uploadedFiles st) ->
  let st' := fold_left UploadPage.step evs st in
  Spec.mirrors (UploadPage.localStorage st') (UploadPage.uploadedFiles st').
Proof.
  revert st. induction evs as [|ev evs IH]; intros st Hst; [exact Hst|].
  cbn [fold_left]. apply IH.
  destruct ev; cbn; [apply store_files_mirrors|exact Hst|apply store_files_mirrors].
Qed.

(** X19: from mounting on, along every sequence of completed uploads,
    failed uploads and removals, the upload page keeps the key in step with
    its list, whatever the storage held before. *)
Lemma upload_page_mirrors
    (JSON_parse : jsstring -> completion (list UploadedFile)) (ls : Storage)
    (evs : list UploadPage.Event) :
  let st := fold_left UploadPage.step evs (UploadPage.mount JSON_parse ls) in
  Spec.mirrors (UploadPage.localStorage st) (UploadPage.uploadedFiles st).
Proof.
  apply mirrors_invariant. unfold UploadPage.mount.
  destruct (load_files JSON_parse ls) as [files|].
  - apply store_files_mirrors.
  - apply (store_files_mirrors [] ls).
Qed.

(** C8: after an upload completes or a file is removed on the upload page,
    and after a removal on the gallery page, the key "r2-uploaded-files"
    holds the JSON text of the new list when that list is not empty and is
    absent when it is empty; no other key is touched.  On the server the
    handler's only effects are the write of the object itself and the
    error log: it keeps no file records. *)
Theorem storage_mirrors_list :
  (forall st ev,
      UploadPage.mutates ev = true ->
      let st' := UploadPage.step st ev in
      UploadPage.localStorage st' !! js "r2-uploaded-files"
      = match UploadPage.uploadedFiles st' with
        | [] => None
        | files => Some (JSON.stringify files)
        end
      /\ (forall k, k <> js "r2-uploaded-files" ->
          UploadPage.localStorage st' !! k = UploadPage.localStorage st !! k)
      /\ UploadPage.uploadedFiles st'
         = match ev with
           | UploadPage.UploadSucceeded f =>
               UploadPage.child_uploadedFiles st ++ [f]
           | UploadPage.Remove fileId =>
               List.filter (fun f => negb (str_eqb (id f) fileId))
                 (UploadPage.child_uploadedFiles st)
           | UploadPage.UploadFailed => UploadPage.uploadedFiles st
           end)
  /\ (forall st fileId,
         let st' := Gallery.handleRemove fileId st in
         Gallery.localStorage st' !! js "r2-uploaded-files"
         = match Gallery.uploadedFiles st' with
           | [] => None
           | files => Some (JSON.stringify files)
           end
         /\ (forall k, k <> js "r2-uploaded-files" ->
             Gallery.localStorage st' !! k = Gallery.localStorage st !! k)
         /\ Gallery.uploadedFiles st'
            = List.filter (fun f => negb (str_eqb (id f) fileId))
                (Gallery.uploadedFiles st))
  /\ (forall w req ev,
         In ev (run_POST w req).2 ->
         (exists f buffer,
             File_arrayBuffer f = Normal buffer
             /\ ev = S3Send (Paths.command_for w f buffer))
         \/ exists e, ev = ConsoleError (js "Upload error:") e).
Proof.
  change (js "r2-uploaded-files") with STORAGE_KEY.
  split; [|split].
  - intros st ev Hev st'. subst st'.
    destruct ev as [f| |fileId]; [|discriminate Hev|]; cbn.
    + pose proof (store_files_mirrors (UploadPage.child_uploadedFiles st ++ [f])
                    (UploadPage.localStorage st)) as Hm.
      unfold Spec.mirrors in Hm.
      split; [|split; [intros k Hk; by apply store_files_other|reflexivity]].
      rewrite Hm. by destruct (_ ++ _).
    + set (updated := List.filter _ _).
      pose proof (store_files_mirrors updated (UploadPage.localStorage st)) as Hm.
      unfold Spec.mirrors in Hm.
      split; [|split; [intros k Hk; by apply store_files_other|reflexivity]].
      rewrite Hm. by destruct updated.
  - intros st fileId st'. subst st'. cbn.
    set (updated := List.filter _ _).
    pose proof (store_files_mirrors updated (Gallery.localStorage st)) as Hm.
    unfold Spec.mirrors in Hm.
    split; [|split; [intros k Hk; by apply store_files_other|reflexivity]].
    rewrite Hm. by destruct updated.
  - intros w req ev.
    by_path w req Hpath; cbn; unfold Paths.logged; intros Hin;
      repeat (destruct Hin as [<-|Hin]); try done; eauto 6.
Qed.

Lemma storage_mirrors_list_witness :
  let st := {| UploadPage.uploadedFiles := [Sample.cat];
               UploadPage.child_uploadedFiles := [Sample.cat];
               UploadPage.localStorage :=
                 <[js "theme" := js "dark"]> ∅ |} in
  let st' := UploadPage.step st (UploadPage.Remove (js "cat.png-1")) in
  UploadPage.localStorage st' !! js "r2-uploaded-files"
  = match UploadPage.uploadedFiles st' with
    | [] => None
    | files => Some (JSON.stringify files)
    end
  /\ (forall k, k <> js "r2-uploaded-files" ->
      UploadPage.localStorage st' !! k = UploadPage.localStorage st !! k)
  /\ UploadPage.uploadedFiles st' = [].
Proof.
  intros st st'.
  apply (proj1 storage_mirrors_list st (UploadPage.Remove (js "cat.png-1"))).
  reflexivity.
Defined.

(** * The gallery filters *)

Lemma filter_split_length {A} (keep : A -> bool) (l : list A) :
  (length (List.filter (fun x => negb (keep x)) l)
   + length (List.filter keep l) = length l)%nat.
Proof.
  induction l as [|x l IH]; [reflexivity|].
  cbn [List.filter]. destruct (keep x); cbn; lia.
Qed.

Lemma filter_split_perm {A} (keep : A -> bool) (l : list A) :
  Permutation (List.filter (fun x => negb (keep x)) l ++ List.filter keep l) l.
Proof.
  induction l as [|x l IH]; [reflexivity|].
  cbn [List.filter]. destruct (keep x); cbn.
  - rewrite <- Permutation_middle. by constructor.
  - by constructor.
Qed.

Lemma filter_true {A} (l : list A) : List.filter (fun _ => true) l = l.
Proof. induction l as [|x l IH]; [reflexivity|]. cbn. by rewrite IH. Qed.

Example gallery_counts :
  let st := {| Gallery.uploadedFiles := [Sample.cat; Sample.clip; Sample.legacy];
               Gallery.filter := Gallery.video;
               Gallery.localStorage := ∅ |} in
  Gallery.imageCount st = 2%nat
  /\ Gallery.videoCount st = 1%nat
  /\ Gallery.filteredFiles st = [Sample.clip].
Proof. repeat split; reflexivity. Qed.

(** C10: every record matches exactly one of the "image" and "video"
    filters, a record without a [type] being an image; the two filtered
    lists together are a rearrangement of the stored list, and on the
    gallery, the home page and the upload page the image count plus the
    video count is the number of files. *)
Theorem gallery_filters_partition (files : list UploadedFile)
    (ls : Storage) :
  let shown flt :=
    Gallery.filteredFiles
      {| Gallery.uploadedFiles := files; Gallery.filter := flt;
         Gallery.localStorage := ls |} in
  (forall f,
      Gallery.matches_filter Gallery.image f
      = negb (Gallery.matches_filter Gallery.video f))
  /\ (forall f, Gallery.matches_filter Gallery.video f = true
                <-> type f = Some (js "video"))
  /\ (forall f, type f = None -> Gallery.matches_filter Gallery.image f = true)
  /\ Permutation (shown Gallery.image ++ shown Gallery.video) files
  /\ shown Gallery.all = files
  /\ (forall flt,
         Gallery.imageCount
           {| Gallery.uploadedFiles := files; Gallery.filter := flt;
              Gallery.localStorage := ls |}
         = length (shown Gallery.image)
         /\ Gallery.videoCount
              {| Gallery.uploadedFiles := files; Gallery.filter := flt;
                 Gallery.localStorage := ls |}
            = length (shown Gallery.video))
  /\ (length (shown Gallery.image) + length (shown Gallery.video)
      = length files)%nat
  /\ (Home.imageCount files + Home.videoCount files = length files)%nat
  /\ (forall child,
         UploadPage.imageCount
           {| UploadPage.uploadedFiles := files;
              UploadPage.child_uploadedFiles := child;
              UploadPage.localStorage := ls |}
         + UploadPage.videoCount
             {| UploadPage.uploadedFiles := files;
                UploadPage.child_uploadedFiles := child;
                UploadPage.localStorage := ls |}
         = length files)%nat.
Proof.
  intros shown. subst shown. unfold Gallery.filteredFiles; cbn.
  split_and!.
  - intros f. reflexivity.
  - intros f. unfold type_is_video, str_eqb. split.
    + destruct (type f) as [t|]; [|discriminate].
      intros Hv. apply bool_decide_eq_true in Hv. by subst t.
    + intros Ht. rewrite Ht. by apply bool_decide_eq_true.
  - intros f Ht. unfold type_is_not_video, type_is_video. by rewrite Ht.
  - apply (filter_split_perm type_is_video).
  - apply filter_true.
  - intros flt. split; reflexivity.
  - apply (filter_split_length type_is_video).
  - apply (filter_split_length type_is_video).
  - intros child. apply (filter_split_length type_is_video).
Qed.

(** * Error recovery in the video player *)

Lemma mounted_inv (p : VideoPlayer.Props) (s : VideoPlayer.State) :
  VideoPlayer.video_mounted p s = true ->
  truthy_str (VideoPlayer.url p) = true
  /\ truthy_opt (VideoPlayer.error s) = false.
Proof.
  unfold VideoPlayer.video_mounted, VideoPlayer.render.
  destruct (truthy_str (VideoPlayer.url p)); cbn; [|discriminate].
  destruct (truthy_opt (VideoPlayer.error s)); cbn; [discriminate|done].
Qed.

Lemma effect_isPlaying_error (s s' : VideoPlayer.State) :
  VideoPlayer.error (VideoPlayer.effect_isPlaying s s') = VideoPlayer.error s'.
Proof.
  unfold VideoPlayer.effect_isPlaying. by destruct (_ && _).
Qed.

Lemma effect_isPlaying_paused (s s' : VideoPlayer.State) :
  VideoPlayer.isPlaying s' = false ->
  VideoPlayer.effect_isPlaying s s' = s'.
Proof.
  intros Hp. unfold VideoPlayer.effect_isPlaying.
  by rewrite Hp, andb_false_r.
Qed.

(** While the error is set, no event other than a change of [url] clears
    it. *)
Lemma error_sticks (p : VideoPlayer.Props) (s : VideoPlayer.State)
    (ev : VideoPlayer.Event) :
  truthy_opt (VideoPlayer.error s) = true ->
  (forall u, ev <> VideoPlayer.UrlProp u) ->
  (VideoPlayer.step (p, s) ev).1 = p
  /\ truthy_opt (VideoPlayer.error (VideoPlayer.step (p, s) ev).2) = true.
Proof.
  intros Herr Hev.
  assert (Hmount : VideoPlayer.video_mounted p s = false).
  { unfold VideoPlayer.video_mounted, VideoPlayer.render.
    rewrite Herr. by destruct (negb _). }
  destruct ev; cbn [VideoPlayer.step VideoPlayer.from_video_element andb];
    rewrite ?Hmount; cbn [negb fst snd];
    rewrite ?effect_isPlaying_error; try done.
  - unfold VideoPlayer.handle, VideoPlayer.controlsTimeout.
    by destruct isPlaying_then.
  - unfold VideoPlayer.handle, VideoPlayer.onMouseLeave.
    by destruct (VideoPlayer.isPlaying s).
  - by destruct (Hev newUrl).
Qed.

(** C9: when the mounted [<video>] element reports an error, through the
    "error" listener or through [onError], the player stores the message
    "Failed to load video. Please try opening it in a new tab.", stops
    playing, and renders the fallback with a link to the video URL that
    opens in a new tab instead of the player; the fallback stays until the
    [url] changes.  A new [url] clears the error and the ready flag; for a
    non-empty [url] the player is rendered again, with its loading
    overlay. *)
Theorem player_error_recovery (p : VideoPlayer.Props) (s : VideoPlayer.State) :
  (forall ev,
      ev = VideoPlayer.ErrorEvent \/ ev = VideoPlayer.OnErrorCallback ->
      VideoPlayer.video_mounted p s = true ->
      let ps' := VideoPlayer.step (p, s) ev in
      ps'.1 = p
      /\ VideoPlayer.error ps'.2
         = Some (js "Failed to load video. Please try opening it in a new tab.")
      /\ VideoPlayer.isPlaying ps'.2 = false
      /\ VideoPlayer.render ps'.1 ps'.2
         = VideoPlayer.ErrorFallback
             (js "Failed to load video. Please try opening it in a new tab.")
             (VideoPlayer.url p) (js "_blank")
      /\ forall evs,
           Forall (fun ev' => forall u, ev' <> VideoPlayer.UrlProp u) evs ->
           let ps'' := VideoPlayer.run ps' evs in
           exists message,
             VideoPlayer.render ps''.1 ps''.2
             = VideoPlayer.ErrorFallback message (VideoPlayer.url p)
                 (js "_blank"))
  /\ (forall newUrl,
         newUrl <> VideoPlayer.url p ->
         let ps' := VideoPlayer.step (p, s) (VideoPlayer.UrlProp newUrl) in
         VideoPlayer.url ps'.1 = newUrl
         /\ VideoPlayer.error ps'.2 = None
         /\ VideoPlayer.isReady ps'.2 = false
         /\ (newUrl <> [] ->
             exists v,
               VideoPlayer.render ps'.1 ps'.2 = VideoPlayer.Player v
               /\ VideoPlayer.loadingOverlay v = true
               /\ VideoPlayer.src v = newUrl)).
Proof.
  split.
  - intros ev Hev Hmount ps'.
    assert (Hps' : ps' = (p, VideoPlayer.handleError s)).
    { subst ps'. destruct Hev as [-> | ->];
        cbn [VideoPlayer.step VideoPlayer.from_video_element andb];
        rewrite Hmount; cbn [negb];
        by rewrite effect_isPlaying_paused. }
    destruct (mounted_inv p s Hmount) as [Hurl _].
    assert (Hview : VideoPlayer.render p (VideoPlayer.handleError s)
                    = VideoPlayer.ErrorFallback
                        (js "Failed to load video. Please try opening it in a new tab.")
                        (VideoPlayer.url p) (js "_blank")).
    { unfold VideoPlayer.render. rewrite Hurl. reflexivity. }
    rewrite Hps'. cbn [fst snd]. split_and!; try done.
    intros evs Hevs. clear Hps' Hview.
    assert (Herr : truthy_opt (VideoPlayer.error (VideoPlayer.handleError s))
                   = true) by reflexivity.
    revert Herr. generalize (VideoPlayer.handleError s) as s0.
    induction Hevs as [|ev' evs Hev' Hevs IH]; intros s0 Herr.
    + cbn. unfold VideoPlayer.render. rewrite Hurl, Herr. cbn. eauto.
    + cbn [VideoPlayer.run fold_left].
      destruct (error_sticks p s0 ev' Herr Hev') as [Hp Herr'].
      destruct (VideoPlayer.step (p, s0) ev') as [p1 s1]; cbn in Hp, Herr'.
      subst p1. by apply IH.
  - intros newUrl Hnew ps'. subst ps'. cbn [VideoPlayer.step].
    unfold str_eqb. rewrite bool_decide_eq_false_2 by done. cbn.
    split_and!; try done.
    intros Hne. unfold VideoPlayer.render. cbn.
    destruct newUrl as [|c newUrl]; [done|]. cbn. eauto.
Qed.

Lemma player_error_recovery_witness :
  let ps := VideoPlayer.run (VideoPlayer.mount Sample.props)
              [VideoPlayer.LoadedData; VideoPlayer.PlayEvent] in
  (VideoPlayer.render (VideoPlayer.step ps VideoPlayer.ErrorEvent).1
     (VideoPlayer.step ps VideoPlayer.ErrorEvent).2
   = VideoPlayer.ErrorFallback
       (js "Failed to load video. Please try opening it in a new tab.")
       (js "https://pub-1.r2.dev/media/2-clip.mp4") (js "_blank"))
  /\ (VideoPlayer.isPlaying ps.2 = true
      /\ VideoPlayer.isPlaying (VideoPlayer.step ps VideoPlayer.ErrorEvent).2
         = false)
  /\ (let ps' := VideoPlayer.step (VideoPlayer.step ps VideoPlayer.ErrorEvent)
                   (VideoPlayer.UrlProp (js "https://pub-1.r2.dev/media/9-b.mp4")) in
      VideoPlayer.error ps'.2 = None /\ VideoPlayer.isReady ps'.2 = false).
Proof.
  intros ps.
  destruct (proj1 (player_error_recovery ps.1 ps.2) VideoPlayer.ErrorEvent
              (or_introl eq_refl) eq_refl)
    as (_ & _ & Hplaying & Hview & _).
  split; [exact Hview|]. split; [split; [reflexivity|exact Hplaying]|].
  intros ps'.
  destruct (proj2 (player_error_recovery
                     (VideoPlayer.step ps VideoPlayer.ErrorEvent).1
                     (VideoPlayer.step ps VideoPlayer.ErrorEvent).2)
              (js "https://pub-1.r2.dev/media/9-b.mp4"))
    as (_ & Herr & Hready & _).
  - vm_compute. discriminate.
  - split; [exact Herr|exact Hready].
Defined.


(** * Further properties of the upload handler *)

(** X1: every answer has status 200, 400 or 500.  The status is 200
    exactly when the request carries a file that passes the validations,
    its bytes are read, and the store accepts the write; the only effect is
    then that one write.  A 400 answer comes with no effect at all. *)
Theorem success_iff_stored (w : World) (req : NextRequest) :
  exists resp log,
    run_POST w req = (Normal resp, log)
    /\ (status resp = 200 \/ status resp = 400 \/ status resp = 500)
    /\ (status resp = 200 <->
        exists f buffer,
          Spec.validations_passed req f
          /\ File_arrayBuffer f = Normal buffer
          /\ s3Client_send w (Paths.command_for w f buffer) = Normal tt)
    /\ (status resp = 200 ->
        exists f buffer, log = [S3Send (Paths.command_for w f buffer)])
    /\ (status resp = 400 -> log = []).
Proof.
  by_path w req Hpath; eexists _, _; (split; [reflexivity|]);
    cbn [status Spec.response500 Paths.no_file_response
           Spec.unsupported_response Paths.too_large_response
           Paths.success_response];
    (split; [auto|]).
  8: { split_and!; [|eauto|discriminate].
       split; [intros _|done].
       exists f, buffer. split_and!; try done. exists fd.
       by rewrite <- supported_not_unsupported, size_limit_maxSize. }
  all: split_and!; try done.
  all: split; [done|].
  all: intros (f0 & buffer0 & (fd0 & Hfd0 & Hget0 & Hsup0 & Hsize0) & Hbuf0 & Hsend0);
    exfalso; apply supported_not_unsupported in Hsup0;
    rewrite size_limit_maxSize in Hsize0; same_reads.
  - rewrite Hget0 in Hno. discriminate Hno.
  - rewrite Hi, Hv in Hsup0. discriminate Hsup0.
  - lia.
Qed.

(** X2: the answer is 400 "No file provided" exactly when the form data
    has no entry named "file" or that entry is the empty text; a non-empty
    text entry is not treated as missing. *)
Theorem no_file_response_iff (w : World) (req : NextRequest) :
  exists resp log,
    run_POST w req = (Normal resp, log)
    /\ (resp = {| status := 400; body := ErrorBody (js "No file provided") |}
        <-> exists fd,
              request_formData req = Normal fd
              /\ (FormData_get fd (js "file") = None
                  \/ FormData_get fd (js "file") = Some (EString []))).
Proof.
  by_path w req Hpath; eexists _, _; (split; [reflexivity|]).
  2: { split; [intros _|done]. exists fd. split; [done|].
       destruct (FormData_get fd (js "file")) as [[f|[|c s]]|];
         first [by left|by right|cbn in Hno; discriminate Hno]. }
  all: split;
    [ intros Heq; exfalso;
      unfold Spec.response500, Spec.unsupported_response,
        Paths.too_large_response, Paths.success_response,
        Spec.size_message in Heq;
      try destruct (startsWith _ _);
      injection Heq as Hst Hbody; try discriminate Hst;
      vm_compute in Hbody; discriminate Hbody
    | intros (fd0 & Hfd0 & [Hget0|Hget0]); exfalso; same_reads; try done ].
Qed.

(** X3: a write to the store is only issued for a file that passed the
    validations and whose bytes were read; it carries exactly those bytes,
    the bucket named by [AWS_S3_BUCKET_NAME], the generated key and the
    file's MIME type.  If reading the file fails, nothing is written. *)
Theorem write_carries_file (w : World) (req : NextRequest) :
  (forall cmd,
      In cmd (sends (run_POST w req).2) ->
      exists f buffer,
        Spec.validations_passed req f
        /\ File_arrayBuffer f = Normal buffer
        /\ Body cmd = buffer
        /\ Bucket cmd = env w !! "AWS_S3_BUCKET_NAME"%string
        /\ Key cmd = fileName_of w f
        /\ ContentType cmd = File_type f)
  /\ (forall fd f e,
         request_formData req = Normal fd ->
         FormData_get fd (js "file") = Some (EFile f) ->
         File_arrayBuffer f = Throw e ->
         sends (run_POST w req).2 = []).
Proof.
  split.
  - intros cmd.
    by_path w req Hpath; cbn; try tauto.
    all: intros [<-|[]]; exists f, buffer; split_and!; try done;
      [ exists fd; by rewrite <- supported_not_unsupported, size_limit_maxSize
      | apply contentType_nonempty, supported_type_nonempty;
        by apply supported_not_unsupported ].
  - intros fd0 f0 e0 Hfd0 Hget0 Hbuf0.
    by_path w req Hpath; cbn; try done; exfalso; same_reads.
Qed.

Lemma write_carries_file_witness :
  sends (run_POST Sample.world (Outcome.upload_of Cases.torn)).2 = [].
Proof.
  apply (proj2 (write_carries_file Sample.world (Outcome.upload_of Cases.torn))
           [(js "file", EFile Cases.torn)] Cases.torn
           (RejectedWith "NotReadableError") eq_refl eq_refl eq_refl).
Defined.

Lemma success_iff_stored_witness :
  exists f buffer,
    Spec.validations_passed (Sample.upload Sample.png) f
    /\ File_arrayBuffer f = Normal buffer
    /\ s3Client_send Sample.world (Paths.command_for Sample.world f buffer)
       = Normal tt.
Proof.
  destruct (success_iff_stored Sample.world (Sample.upload Sample.png))
    as (resp & log & Hrun & _ & Hiff & _).
  apply Hiff. vm_compute in Hrun. by injection Hrun as <- _.
Defined.

Lemma no_file_response_iff_witness :
  exists resp log,
    run_POST Sample.world
      {| request_formData := Normal [(js "file", EString [])] |}
    = (Normal resp, log)
    /\ resp = {| status := 400; body := ErrorBody (js "No file provided") |}.
Proof.
  destruct (no_file_response_iff Sample.world
              {| request_formData := Normal [(js "file", EString [])] |})
    as (resp & log & Hrun & Hiff).
  exists resp, log. split; [exact Hrun|]. apply Hiff.
  exists [(js "file", EString [])]. split; [reflexivity|]. right. reflexivity.
Defined.

(** * The generated key, continued *)

Lemma js_cons (a : ascii) (s : string) : js (String a s) = cu a :: js s.
Proof. reflexivity. Qed.

Lemma js_inj (s t : string) : js s = js t -> s = t.
Proof.
  revert t. induction s as [|a s IH]; intros [|b t]; try done.
  rewrite !js_cons. intros [= Hab Hst].
  f_equal; [|by apply IH].
  unfold cu in Hab.
  rewrite <- (ascii_N_embedding a), <- (ascii_N_embedding b). by rewrite Hab.
Qed.

Lemma uint_digits (d : Decimal.uint) :
  forallb Outcome.is_digit (js (NilEmpty.string_of_uint d)) = true.
Proof. induction d; cbn [NilEmpty.string_of_uint]; rewrite ?js_cons; cbn [forallb]; try done; by rewrite IHd. Qed.

(** The decimal text of an integer: an optional minus sign, then at least
    one digit. *)
Lemma Number_toString_shape (n : Z) :
  exists sign digits,
    Number_toString n = sign ++ digits
    /\ (sign = [] \/ sign = js "-")
    /\ digits <> []
    /\ forallb Outcome.is_digit digits = true.
Proof.
  unfold Number_toString. destruct n as [|p|p]; cbn [Z.to_int].
  - exists [], (js "0"). by split_and!; [|left| |].
  - exists [], (js (NilEmpty.string_of_uint (Pos.to_uint p))).
    pose proof (DecimalPos.Unsigned.to_uint_nonnil p) as Hnil.
    split_and!; [|by left| |apply uint_digits];
      destruct (Pos.to_uint p); done.
  - exists (js "-"), (js (NilEmpty.string_of_uint (Pos.to_uint p))).
    pose proof (DecimalPos.Unsigned.to_uint_nonnil p) as Hnil.
    split_and!; [|by right| |apply uint_digits];
      destruct (Pos.to_uint p); done.
Qed.

Lemma Number_toString_inj (n m : Z) :
  Number_toString n = Number_toString m -> n = m.
Proof.
  unfold Number_toString. intros Heq. apply js_inj in Heq.
  apply DecimalZ.to_int_inj.
  assert (Hnorm : forall z, Z.to_int z <> Decimal.Pos Decimal.Nil
                            /\ Z.to_int z <> Decimal.Neg Decimal.Nil).
  { intros [|p|p]; cbn; split; try done;
      intros [= Hp]; by apply (DecimalPos.Unsigned.to_uint_nonnil p). }
  destruct (Hnorm n) as [Hn1 Hn2], (Hnorm m) as [Hm1 Hm2].
  pose proof (NilZero.isi _ Hn1 Hn2) as Hn.
  pose proof (NilZero.isi _ Hm1 Hm2) as Hm.
  rewrite Heq in Hn. rewrite Hn in Hm. by injection Hm.
Qed.

(** Two texts made of digits and followed by a hyphen agree when the
    whole strings agree. *)
Lemma digits_then_hyphen (d1 d2 s1 s2 : jsstring) :
  forallb Outcome.is_digit d1 = true ->
  forallb Outcome.is_digit d2 = true ->
  d1 ++ cu "-" :: s1 = d2 ++ cu "-" :: s2 ->
  d1 = d2 /\ s1 = s2.
Proof.
  revert d2. induction d1 as [|c d1 IH]; intros [|c' d2] H1 H2 Heq;
    cbn in *.
  - by injection Heq.
  - injection Heq as <- _. apply andb_true_iff in H2 as [H2 _].
    vm_compute in H2. discriminate H2.
  - injection Heq as -> _. apply andb_true_iff in H1 as [H1 _].
    vm_compute in H1. discriminate H1.
  - injection Heq as -> Heq.
    apply andb_true_iff in H1 as [_ H1]. apply andb_true_iff in H2 as [_ H2].
    destruct (IH d2 H1 H2 Heq) as [-> ->]. done.
Qed.

(** X4: two generated keys are equal exactly when the timestamps are equal
    and the two names are equal after sanitising: uploads at different
    milliseconds never share a key, and within one millisecond names that
    differ only in replaced characters do. *)
Theorem key_collision (w1 w2 : World) (f1 f2 : File) :
  fileName_of w1 f1 = fileName_of w2 f2
  <-> Date_now w1 = Date_now w2
      /\ Spec.sanitized (File_name f1) = Spec.sanitized (File_name f2).
Proof.
  rewrite !fileName_of_sanitized. split.
  - intros Heq.
    destruct (Number_toString_shape (Date_now w1))
      as (g1 & d1 & E1 & Hg1 & Hne1 & Hd1).
    destruct (Number_toString_shape (Date_now w2))
      as (g2 & d2 & E2 & Hg2 & Hne2 & Hd2).
    rewrite E1, E2, <- !app_assoc in Heq.
    change (js "-" ++ ?s) with (cu "-" :: s) in Heq.
    assert (Hfirst : forall d, d <> [] -> forallb Outcome.is_digit d = true ->
                     exists c d', d = c :: d' /\ c <> cu "-").
    { intros [|c d'] Hne Hd; [done|]. exists c, d'. split; [done|].
      intros ->. vm_compute in Hd. discriminate Hd. }
    destruct (Hfirst d1 Hne1 Hd1) as (c1 & d1' & -> & Hc1).
    destruct (Hfirst d2 Hne2 Hd2) as (c2 & d2' & -> & Hc2).
    assert (Hsigns : g1 = g2).
    { destruct Hg1 as [->| ->], Hg2 as [->| ->]; try done;
        change (js "-") with [cu "-"] in Heq;
        cbn [app] in Heq; injection Heq as Hc _;
        vm_compute in Hc, Hc1, Hc2; congruence. }
    subst g2. apply app_inv_head in Heq.
    destruct (digits_then_hyphen _ _ _ _ Hd1 Hd2 Heq) as [Hd Hs].
    split; [|exact Hs]. apply Number_toString_inj. by rewrite E1, E2, Hd.
  - by intros [-> ->].
Qed.

Lemma sanitized_fixed_iff (name : jsstring) :
  Spec.sanitized name = name <-> forallb Spec.safe_char name = true.
Proof.
  unfold Spec.sanitized, Spec.safe_char.
  induction name as [|c name IH]; [done|].
  cbn [map forallb]. rewrite andb_true_iff, <- IH. split.
  - intros [= Hc Hname]. split; [|done].
    destruct (Spec.in_name_alphabet c); [done|].
    rewrite <- Hc. reflexivity.
  - intros [Hc ->]. f_equal.
    destruct (Spec.in_name_alphabet c); [done|].
    cbn in Hc. apply N.eqb_eq in Hc. by subst c.
Qed.

(** X5: sanitising leaves a name unchanged exactly when it already holds
    only letters, digits, ".", "-" and "_"; sanitising twice is the same as
    sanitising once. *)
Theorem sanitize_fixpoint (name : jsstring) :
  (replace_class_g unsafe_name_chars (js "_") name = name
   <-> forallb Spec.safe_char name = true)
  /\ replace_class_g unsafe_name_chars (js "_")
       (replace_class_g unsafe_name_chars (js "_") name)
     = replace_class_g unsafe_name_chars (js "_") name.
Proof.
  rewrite !replace_is_sanitized. split.
  - apply sanitized_fixed_iff.
  - apply sanitized_fixed_iff, sanitized_safe.
Qed.

Lemma key_collision_witness :
  fileName_of Sample.world
    {| File_name := js "a b.png"; File_type := js "image/png";
       File_size := 1; File_arrayBuffer := Throw (RejectedWith "unused") |}
  = fileName_of Sample.world_store_down
      {| File_name := js "a_b.png"; File_type := js "image/png";
         File_size := 2; File_arrayBuffer := Throw (RejectedWith "unused") |}.
Proof.
  apply (proj2 (key_collision Sample.world Sample.world_store_down _ _)).
  split; reflexivity.
Defined.

(** * The upload components against the route handler *)

Lemma get_upload_of (file : File) :
  FormData_get [(js "file", EFile file)] (js "file") = Some (EFile file).
Proof.
  cbn [FormData_get]. unfold str_eqb. by rewrite bool_decide_eq_true_2.
Qed.


(** What the route handler answers to the request of an upload component:
    the success response when the file is stored, and otherwise an error
    body with one of three messages. *)
Lemma fetch_upload_cases (w : World) (file : File) :
  (Outcome.stored w file
   /\ Client.fetch_upload w file = Normal (Paths.success_response w file))
  \/ (~ Outcome.stored w file
      /\ exists code,
           (code = 400 \/ code = 500)
           /\ Client.fetch_upload w file
              = Normal {| status := code;
                          body := ErrorBody (Outcome.refusal w file) |}).
Proof.
  unfold Client.fetch_upload, Outcome.stored, Outcome.refusal.
  rewrite size_limit_maxSize.
  change {| request_formData := Normal [(js "file", EFile file)] |}
    with (Outcome.upload_of file).
  by_path w (Outcome.upload_of file) Hpath;
    cbn [Outcome.upload_of request_formData] in Hfd; simplify_eq;
    rewrite ?get_upload_of in *; simplify_eq.
  - right. split.
    + intros (Hsup & _). apply supported_not_unsupported in Hsup.
      rewrite Hi, Hv in Hsup. discriminate Hsup.
    + exists 400. rewrite Hi, Hv. by split; [left|].
  - right. split; [intros (_ & Hle & _); lia|].
    exists 400. rewrite (supported_guard _ Hsup).
    apply N.ltb_lt in Hlt. rewrite Hlt. by split; [left|].
  - right. split; [intros (_ & _ & b & Hb & _); congruence|].
    exists 500. rewrite (supported_guard _ Hsup).
    apply N.ltb_ge in Hle. rewrite Hle. by split; [right|].
  - right. split; [intros (_ & _ & b & Hb & Hs); congruence|].
    exists 500. rewrite (supported_guard _ Hsup).
    apply N.ltb_ge in Hle. rewrite Hle. by split; [right|].
  - left. split; [|done].
    split_and!; [by apply supported_not_unsupported|done|eauto].
Qed.




(** * Mounting, removing, and undoing an upload *)

Lemma keep_other_ids_fresh (fileId : jsstring) (files : list UploadedFile) :
  Outcome.fresh_id fileId files ->
  List.filter (fun f => negb (str_eqb (id f) fileId)) files = files.
Proof.
  unfold Outcome.fresh_id. induction 1 as [|f files Hf Hfiles IH]; [done|].
  cbn [List.filter]. unfold str_eqb at 1.
  rewrite bool_decide_eq_false_2 by done. cbn. by rewrite IH.
Qed.

Lemma keep_other_ids_spec (fileId : jsstring) (files : list UploadedFile)
    (f : UploadedFile) :
  In f (List.filter (fun f => negb (str_eqb (id f) fileId)) files)
  <-> In f files /\ id f <> fileId.
Proof.
  rewrite filter_In. unfold str_eqb.
  rewrite negb_true_iff, bool_decide_eq_false. done.
Qed.

Lemma keep_other_ids_sublist (fileId : jsstring) (files : list UploadedFile) :
  sublist (List.filter (fun f => negb (str_eqb (id f) fileId)) files) files.
Proof.
  induction files as [|f files IH]; [constructor|].
  cbn [List.filter]. destruct (negb _); by constructor.
Qed.

Lemma store_files_twice (l1 l2 : list UploadedFile) (ls : Storage) :
  store_files l2 (store_files l1 ls) = store_files l2 ls.
Proof.
  unfold store_files.
  destruct (0 <? length l1)%nat, (0 <? length l2)%nat.
  - apply insert_insert_eq.
  - apply delete_insert_eq.
  - apply insert_delete_eq.
  - apply delete_delete_eq.
Qed.

Lemma store_files_mirrored (files : list UploadedFile) (ls : Storage) :
  Spec.mirrors ls files -> store_files files ls = ls.
Proof.
  unfold Spec.mirrors, store_files. destruct files as [|f files]; cbn.
  - apply delete_id.
  - apply insert_id.
Qed.

(** X8: mounting the upload page leaves the list read from storage (the
    empty list when the key is absent, empty, or its text does not parse)
    and a storage key that mirrors it, so text that does not parse is
    erased from storage; other keys are untouched.  Mounting the gallery
    reads the same list and writes nothing. *)
Theorem mount_normalises_storage
    (JSON_parse : jsstring -> completion (list UploadedFile)) (ls : Storage) :
  let st := UploadPage.mount JSON_parse ls in
  UploadPage.uploadedFiles st = default [] (load_files JSON_parse ls)
  /\ UploadPage.child_uploadedFiles st = UploadPage.uploadedFiles st
  /\ Spec.mirrors (UploadPage.localStorage st) (UploadPage.uploadedFiles st)
  /\ (forall k, k <> STORAGE_KEY -> UploadPage.localStorage st !! k = ls !! k)
  /\ (forall text e,
         ls !! STORAGE_KEY = Some text -> JSON_parse text = Throw e ->
         UploadPage.uploadedFiles st = []
         /\ UploadPage.localStorage st !! STORAGE_KEY = None)
  /\ Gallery.uploadedFiles (Gallery.mount JSON_parse ls)
     = UploadPage.uploadedFiles st
  /\ Gallery.localStorage (Gallery.mount JSON_parse ls) = ls.
Proof.
  intros st. subst st. unfold UploadPage.mount, Gallery.mount.
  assert (Hcorrupt : forall text e,
             ls !! STORAGE_KEY = Some text -> JSON_parse text = Throw e ->
             load_files JSON_parse ls = None).
  { intros text e Hls Hparse. unfold load_files. rewrite Hls, Hparse.
    by destruct (truthy_str text). }
  destruct (load_files JSON_parse ls) as [files|] eqn:Hload;
    cbn [default UploadPage.handleUploadComplete UploadPage.uploadedFiles
           UploadPage.child_uploadedFiles UploadPage.localStorage
           Gallery.uploadedFiles Gallery.localStorage].
  - split_and!; try done.
    + apply store_files_mirrors.
    + intros k Hk. by rewrite !store_files_other.
    + intros text e Hls Hparse.
      by specialize (Hcorrupt text e Hls Hparse).
  - split_and!; try done.
    + apply (store_files_mirrors [] ls).
    + intros k Hk. by rewrite store_files_other.
    + intros text e _ _. split; [done|].
      apply (store_files_mirrors [] ls).
Qed.

Lemma mount_normalises_storage_witness :
  let ls : Storage := <[STORAGE_KEY := js "{not json"]> ∅ in
  let st := UploadPage.mount (fun _ => Throw (RejectedWith "SyntaxError")) ls in
  UploadPage.uploadedFiles st = []
  /\ UploadPage.localStorage st !! STORAGE_KEY = None.
Proof.
  intros ls st.
  destruct (mount_normalises_storage
              (fun _ => Throw (RejectedWith "SyntaxError")) ls)
    as (_ & _ & _ & _ & Herase & _).
  apply (Herase (js "{not json") (RejectedWith "SyntaxError"));
    reflexivity.
Defined.

(** X9: removing a file on the gallery leaves no record with that id,
    keeps every other record in its order, and keeps the chosen filter;
    removing an id that is not in the list leaves the list as it is, and
    removing the same id twice changes nothing the second time. *)
Theorem gallery_remove (fileId : jsstring) (st : Gallery.State) :
  let st' := Gallery.handleRemove fileId st in
  Outcome.fresh_id fileId (Gallery.uploadedFiles st')
  /\ (forall f, In f (Gallery.uploadedFiles st')
                <-> In f (Gallery.uploadedFiles st) /\ id f <> fileId)
  /\ sublist (Gallery.uploadedFiles st') (Gallery.uploadedFiles st)
  /\ Gallery.filter st' = Gallery.filter st
  /\ (Outcome.fresh_id fileId (Gallery.uploadedFiles st) ->
      Gallery.uploadedFiles st' = Gallery.uploadedFiles st)
  /\ Gallery.handleRemove fileId st' = st'.
Proof.
  intros st'. subst st'. unfold Gallery.handleRemove; cbn.
  assert (Hfresh : Outcome.fresh_id fileId
            (List.filter (fun f => negb (str_eqb (id f) fileId))
               (Gallery.uploadedFiles st))).
  { apply Forall_forall. intros f Hf.
    apply list_elem_of_In, keep_other_ids_spec in Hf. tauto. }
  split_and!.
  - exact Hfresh.
  - intros f. apply keep_other_ids_spec.
  - apply keep_other_ids_sublist.
  - reflexivity.
  - apply keep_other_ids_fresh.
  - rewrite (keep_other_ids_fresh _ _ Hfresh). by rewrite store_files_twice.
Qed.

Lemma gallery_remove_witness :
  let st := {| Gallery.uploadedFiles := [Sample.cat; Sample.clip];
               Gallery.filter := Gallery.all;
               Gallery.localStorage := ∅ |} in
  Gallery.uploadedFiles (Gallery.handleRemove (js "absent") st)
  = [Sample.cat; Sample.clip].
Proof.
  intros st.
  destruct (gallery_remove (js "absent") st) as (_ & _ & _ & _ & Hsame & _).
  apply Hsame. repeat constructor; vm_compute; discriminate.
Defined.

(** X10: on the upload page, a completed upload followed by the removal of
    that same id undoes the upload when the id was not in the list before:
    the lists are the old component list again and storage is what
    persisting that list gives.  If the page was in step with its storage
    beforehand, the whole state is restored. *)
Theorem upload_then_remove (st : UploadPage.State) (f : UploadedFile) :
  Outcome.fresh_id (id f) (UploadPage.child_uploadedFiles st) ->
  let st' :=
    UploadPage.step (UploadPage.step st (UploadPage.UploadSucceeded f))
      (UploadPage.Remove (id f)) in
  UploadPage.uploadedFiles st' = UploadPage.child_uploadedFiles st
  /\ UploadPage.child_uploadedFiles st' = UploadPage.child_uploadedFiles st
  /\ UploadPage.localStorage st'
     = store_files (UploadPage.child_uploadedFiles st)
         (UploadPage.localStorage st)
  /\ (UploadPage.uploadedFiles st = UploadPage.child_uploadedFiles st ->
      Spec.mirrors (UploadPage.localStorage st) (UploadPage.uploadedFiles st) ->
      st' = st).
Proof.
  intros Hfresh st'. subst st'. cbn.
  assert (Hback : List.filter (fun g => negb (str_eqb (id g) (id f)))
                    (UploadPage.child_uploadedFiles st ++ [f])
                  = UploadPage.child_uploadedFiles st).
  { rewrite List.filter_app, (keep_other_ids_fresh _ _ Hfresh). cbn.
    unfold str_eqb. rewrite bool_decide_eq_true_2 by done. cbn.
    apply app_nil_r. }
  rewrite Hback, store_files_twice. split_and!; try done.
  intros Hsame Hmirror. destruct st as [files child ls]; cbn in *. subst child.
  unfold UploadPage.handleUploadComplete; cbn.
  by rewrite store_files_twice, (store_files_mirrored _ _ Hmirror).
Qed.

Lemma upload_then_remove_witness :
  let st := {| UploadPage.uploadedFiles := [Sample.cat];
               UploadPage.child_uploadedFiles := [Sample.cat];
               UploadPage.localStorage :=
                 store_files [Sample.cat] (<[js "theme" := js "dark"]> ∅) |} in
  UploadPage.step (UploadPage.step st (UploadPage.UploadSucceeded Sample.clip))
    (UploadPage.Remove (id Sample.clip))
  = st.
Proof.
  intros st.
  apply (upload_then_remove st Sample.clip).
  - repeat constructor. vm_compute. discriminate.
  - reflexivity.
  - apply store_files_mirrors.
Defined.

(** * The video player, continued *)

(** The fallback view stays through every sequence of events that does not
    change [url]. *)
Lemma fallback_persists (p : VideoPlayer.Props) (s : VideoPlayer.State)
    (evs : list VideoPlayer.Event) :
  truthy_str (VideoPlayer.url p) = true ->
  truthy_opt (VideoPlayer.error s) = true ->
  Forall (fun ev => forall u, ev <> VideoPlayer.UrlProp u) evs ->
  exists message,
    VideoPlayer.render (VideoPlayer.run (p, s) evs).1
      (VideoPlayer.run (p, s) evs).2
    = VideoPlayer.ErrorFallback message (VideoPlayer.url p) (js "_blank").
Proof.
  intros Hurl Herr Hevs. revert s Herr.
  induction Hevs as [|ev evs Hev Hevs IH]; intros s Herr.
  - cbn. unfold VideoPlayer.render. rewrite Hurl, Herr. cbn. eauto.
  - cbn [VideoPlayer.run fold_left].
    destruct (error_sticks p s ev Herr Hev) as [Hp Herr'].
    destruct (VideoPlayer.step (p, s) ev) as [p1 s1]; cbn in Hp, Herr'.
    subst p1. by apply IH.
Qed.

(** One step keeps "the thumbnail is hidden" and "playing implies the
    thumbnail is hidden". *)
Lemma step_thumbnail (ps : VideoPlayer.Props * VideoPlayer.State)
    (ev : VideoPlayer.Event) :
  (VideoPlayer.showThumbnail ps.2 = false ->
   VideoPlayer.showThumbnail (VideoPlayer.step ps ev).2 = false)
  /\ ((VideoPlayer.isPlaying ps.2 = true ->
       VideoPlayer.showThumbnail ps.2 = false) ->
      VideoPlayer.isPlaying (VideoPlayer.step ps ev).2 = true ->
      VideoPlayer.showThumbnail (VideoPlayer.step ps ev).2 = false).
Proof.
  destruct ps as [p s]. cbn [fst snd].
  destruct ev; cbn [VideoPlayer.step VideoPlayer.from_video_element andb];
    try destruct (negb (VideoPlayer.video_mounted p s));
    try destruct (str_eqb newUrl (VideoPlayer.url p));
    cbn [fst snd VideoPlayer.handle];
    unfold VideoPlayer.effect_isPlaying, VideoPlayer.effect_url,
      VideoPlayer.handlePlay, VideoPlayer.handlePause,
      VideoPlayer.handleError, VideoPlayer.onError, VideoPlayer.onLoadedData,
      VideoPlayer.handleLoadedMetadata, VideoPlayer.handleTimeUpdate,
      VideoPlayer.handleSeekChange, VideoPlayer.handlePlayPause,
      VideoPlayer.playRejected, VideoPlayer.handleMouseMove,
      VideoPlayer.controlsTimeout, VideoPlayer.onMouseLeave;
    try destruct (PrimFloat.ltb 0 videoDuration);
    try destruct isPlaying_then;
    destruct (VideoPlayer.isPlaying s) eqn:Hplaying;
    destruct (VideoPlayer.showThumbnail s) eqn:Hthumb;
    cbn; rewrite ?Hplaying, ?Hthumb; cbn; split; intros; try done;
    try congruence;
    match goal with
    | H : true = true -> true = false |- _ =>
        specialize (H eq_refl); discriminate H
    end.
Qed.

(** X11: once the thumbnail overlay is hidden it never comes back, and in
    every state reached from mounting, a player that is playing has its
    thumbnail hidden: starting playback (or mounting with [autoPlay]) hides
    it for good, also across pauses, errors and changes of [url]. *)
Theorem thumbnail_never_returns (p : VideoPlayer.Props)
    (evs more : list VideoPlayer.Event) :
  let ps := VideoPlayer.run (VideoPlayer.mount p) evs in
  (VideoPlayer.isPlaying ps.2 = true -> VideoPlayer.showThumbnail ps.2 = false)
  /\ (VideoPlayer.showThumbnail ps.2 = false ->
      VideoPlayer.showThumbnail (VideoPlayer.run ps more).2 = false
      /\ forall v,
           VideoPlayer.render (VideoPlayer.run ps more).1
             (VideoPlayer.run ps more).2 = VideoPlayer.Player v ->
           VideoPlayer.thumbnailOverlay v = false).
Proof.
  intros ps. subst ps. split.
  - unfold VideoPlayer.run.
    induction evs as [|ev evs IH] using rev_ind.
    + cbn. unfold VideoPlayer.initial; cbn. by destruct (VideoPlayer.autoPlay p).
    + rewrite fold_left_app. cbn [fold_left].
      exact (proj2 (step_thumbnail _ ev) IH).
  - generalize (VideoPlayer.run (VideoPlayer.mount p) evs) as ps.
    intros ps Hhidden.
    assert (Hmore : VideoPlayer.showThumbnail (VideoPlayer.run ps more).2
                    = false).
    { unfold VideoPlayer.run. revert ps Hhidden.
      induction more as [|ev more IH]; intros ps Hhidden; [done|].
      cbn [fold_left]. apply IH.
      exact (proj1 (step_thumbnail ps ev) Hhidden). }
    split; [exact Hmore|].
    intros v. unfold VideoPlayer.render. rewrite Hmore.
    destruct (negb _); [done|]. destruct (truthy_opt _); [done|].
    by intros [= <-].
Qed.

Lemma thumbnail_never_returns_witness :
  let ps := VideoPlayer.run (VideoPlayer.mount Sample.props)
              [VideoPlayer.LoadedData; VideoPlayer.PlayEvent] in
  VideoPlayer.showThumbnail
    (VideoPlayer.run ps
       [VideoPlayer.PauseEvent;
        VideoPlayer.UrlProp (js "https://pub-1.r2.dev/media/9-b.mp4")]).2
  = false.
Proof.
  intros ps.
  apply (proj2 (thumbnail_never_returns Sample.props
                  [VideoPlayer.LoadedData; VideoPlayer.PlayEvent]
                  [VideoPlayer.PauseEvent;
                   VideoPlayer.UrlProp (js "https://pub-1.r2.dev/media/9-b.mp4")])).
  apply (proj1 (thumbnail_never_returns Sample.props
                  [VideoPlayer.LoadedData; VideoPlayer.PlayEvent] [])).
  reflexivity.
Defined.

(** X12: when [play()] is rejected the player is replaced by the fallback
    view with the message "Unable to play video. Please try clicking play
    again." and the link to the URL; the [<video>] element and the play
    button are gone, and the fallback stays until [url] changes. *)
Theorem play_rejection_replaces_player (p : VideoPlayer.Props)
    (s : VideoPlayer.State) (evs : list VideoPlayer.Event) :
  VideoPlayer.url p <> [] ->
  Forall (fun ev => forall u, ev <> VideoPlayer.UrlProp u) evs ->
  let ps' := VideoPlayer.step (p, s) VideoPlayer.PlayRejected in
  VideoPlayer.render ps'.1 ps'.2
  = VideoPlayer.ErrorFallback
      (js "Unable to play video. Please try clicking play again.")
      (VideoPlayer.url p) (js "_blank")
  /\ VideoPlayer.video_mounted ps'.1 ps'.2 = false
  /\ exists message,
       VideoPlayer.render (VideoPlayer.run ps' evs).1
         (VideoPlayer.run ps' evs).2
       = VideoPlayer.ErrorFallback message (VideoPlayer.url p) (js "_blank").
Proof.
  intros Hurl Hevs ps'.
  assert (Htruthy : truthy_str (VideoPlayer.url p) = true).
  { by destruct (VideoPlayer.url p). }
  assert (Hps' : ps' = (p, VideoPlayer.playRejected s)).
  { subst ps'. cbn [VideoPlayer.step VideoPlayer.from_video_element andb].
    cbn [VideoPlayer.handle]. f_equal.
    unfold VideoPlayer.effect_isPlaying, VideoPlayer.playRejected. cbn.
    by destruct (VideoPlayer.isPlaying s). }
  rewrite Hps'. cbn [fst snd].
  assert (Hview : VideoPlayer.render p (VideoPlayer.playRejected s)
                  = VideoPlayer.ErrorFallback
                      (js "Unable to play video. Please try clicking play again.")
                      (VideoPlayer.url p) (js "_blank")).
  { unfold VideoPlayer.render. rewrite Htruthy. reflexivity. }
  split_and!.
  - exact Hview.
  - unfold VideoPlayer.video_mounted. by rewrite Hview.
  - by apply fallback_persists.
Qed.

Lemma play_rejection_replaces_player_witness :
  VideoPlayer.video_mounted
    (VideoPlayer.step (VideoPlayer.mount Sample.props) VideoPlayer.PlayRejected).1
    (VideoPlayer.step (VideoPlayer.mount Sample.props) VideoPlayer.PlayRejected).2
  = false.
Proof.
  destruct (play_rejection_replaces_player Sample.props
              (VideoPlayer.mount Sample.props).2 [VideoPlayer.PlayPauseClick])
    as (_ & Hgone & _).
  - vm_compute. discriminate.
  - repeat constructor. discriminate.
  - exact Hgone.
Defined.

(** * The video page *)

Lemma split_on_nonempty (sep : N) (s : jsstring) : split_on sep s <> [].
Proof.
  destruct s as [|c rest]; cbn [split_on]; [done|].
  destruct (c =? sep); [done|]. by destruct (split_on sep rest).
Qed.

(** A string without the separator is its own single part. *)
Lemma split_on_plain (sep : N) (s : jsstring) :
  ~ In sep s -> split_on sep s = [s].
Proof.
  induction s as [|c rest IH]; intros Hsep; [done|].
  cbn [split_on].
  destruct (N.eqb_spec c sep) as [->|Hc]; [exfalso; apply Hsep; by left|].
  rewrite IH; [done|]. intros Hin. apply Hsep. by right.
Qed.

(** Splitting at an occurrence of the separator. *)
Lemma split_on_app (sep : N) (a b : jsstring) :
  split_on sep (a ++ sep :: b) = split_on sep a ++ split_on sep b.
Proof.
  induction a as [|c a IH]; cbn [app split_on].
  - by rewrite N.eqb_refl.
  - destruct (c =? sep); rewrite IH; [done|].
    pose proof (split_on_nonempty sep a) as Hne.
    by destruct (split_on sep a).
Qed.

Lemma last_part_after_slash (a b : jsstring) :
  ~ In (cu "/") b -> VideoViewPage.last_part (a ++ cu "/" :: b) = b.
Proof.
  intros Hb. unfold VideoViewPage.last_part.
  by rewrite split_on_app, (split_on_plain _ b Hb), last_snoc.
Qed.

Lemma last_part_plain (s : jsstring) :
  ~ In (cu "/") s -> VideoViewPage.last_part s = s.
Proof.
  intros Hs. unfold VideoViewPage.last_part. by rewrite split_on_plain.
Qed.

(** The last part is the text after the last slash, or the whole string
    when there is no slash. *)
Lemma last_part_spec (u : jsstring) :
  (~ In (cu "/") u /\ VideoViewPage.last_part u = u)
  \/ exists a b,
       u = a ++ cu "/" :: b /\ ~ In (cu "/") b
       /\ VideoViewPage.last_part u = b.
Proof.
  induction u as [|c u IH].
  - left. split; [by intros []|done].
  - destruct IH as [[Hplain Hlast]|(a & b & -> & Hb & Hlast)].
    + destruct (N.eqb_spec c (cu "/")) as [->|Hc].
      * right. exists [], u. split_and!; try done.
        by apply (last_part_after_slash []).
      * left. assert (Hcu : ~ In (cu "/") (c :: u)).
        { intros [Heq|Hin]; [by apply Hc|by apply Hplain]. }
        split; [done|by apply last_part_plain].
    + right. exists (c :: a), b. split_and!; try done.
      by apply (last_part_after_slash (c :: a)).
Qed.

(** Text without a percent sign decodes to itself. *)
Lemma Decode_plain (fuel : nat) (s : jsstring) :
  ~ In (cu "%") s -> (length s <= fuel)%nat -> URI.Decode fuel s = Normal s.
Proof.
  revert s. induction fuel as [|fuel IH]; intros [|c s] Hs Hlen;
    cbn [URI.Decode]; try done; cbn in Hlen; [lia|].
  destruct (N.eqb_spec c (cu "%")) as [->|Hc]; [exfalso; apply Hs; by left|].
  rewrite IH; [done| |lia]. intros Hin. apply Hs. by right.
Qed.

Lemma decodeURIComponent_plain (s : jsstring) :
  ~ In (cu "%") s -> URI.decodeURIComponent s = Normal s.
Proof. intros Hs. by apply Decode_plain. Qed.

Lemma includes_empty (s : jsstring) : includes s [] = true.
Proof. by destruct s. Qed.

Lemma includes_self (s : jsstring) : includes s s = true.
Proof.
  assert (Hstarts : startsWith s s = true).
  { induction s as [|c s IH]; [done|]. cbn. by rewrite N.eqb_refl, IH. }
  destruct s; cbn [includes]; by rewrite Hstarts.
Qed.

(** X13: with a non-empty [url] search parameter the effect looks neither
    at the route id nor at what local storage holds.  The name it shows is
    the percent-decoded text after the last slash of the URL (the whole URL
    when it has no slash); when that text decodes, the page leaves the
    loading state and renders the player on that URL with [autoPlay], which
    mounts muted, marked as playing and without thumbnail.  When the text
    does not decode, the effect throws and the state is not updated. *)
Theorem url_param_wins
    (JSON_parse : jsstring -> completion (list UploadedFile)) (ls : Storage)
    (videoId u : jsstring) (st : VideoViewPage.State) :
  u <> [] ->
  VideoViewPage.effect JSON_parse ls videoId (Some u) st
  = VideoViewPage.effect (fun _ => Normal []) ∅ [] (Some u)
      VideoViewPage.initial
  /\ ((~ In (cu "/") u /\ VideoViewPage.last_part u = u)
      \/ exists a b, u = a ++ cu "/" :: b /\ ~ In (cu "/") b
                     /\ VideoViewPage.last_part u = b)
  /\ (forall shown,
         URI.decodeURIComponent (VideoViewPage.last_part u) = Normal shown ->
         exists st',
           VideoViewPage.effect JSON_parse ls videoId (Some u) st = Normal st'
           /\ VideoViewPage.loading st' = false
           /\ VideoViewPage.video st'
              = Some {| id := u; url := u; name := shown;
                        type := Some (js "video") |}
           /\ exists player,
                VideoViewPage.render videoId st'
                = VideoViewPage.Watch u player shown u
                /\ VideoPlayer.url player = u
                /\ VideoPlayer.autoPlay player = true
                /\ VideoPlayer.isMuted (VideoPlayer.mount player).2 = true
                /\ VideoPlayer.isPlaying (VideoPlayer.mount player).2 = true
                /\ VideoPlayer.showThumbnail (VideoPlayer.mount player).2
                   = false)
  /\ (forall e,
         URI.decodeURIComponent (VideoViewPage.last_part u) = Throw e ->
         VideoViewPage.effect JSON_parse ls videoId (Some u) st = Throw e).
Proof.
  intros Hu.
  assert (Htruthy : truthy_str u = true) by by destruct u.
  unfold VideoViewPage.effect, VideoViewPage.video_of_url. rewrite Htruthy.
  split_and!.
  - by destruct (URI.decodeURIComponent _).
  - apply last_part_spec.
  - intros shown ->. cbn. eexists. split; [reflexivity|]. cbn.
    split_and!; try done. eexists. split; [reflexivity|]. by cbn.
  - by intros e ->.
Qed.

Lemma url_param_wins_witness :
  VideoViewPage.effect (fun _ => Normal [Sample.clip])
    (<[STORAGE_KEY := js "[]"]> ∅) (js "clip.mp4-2")
    (Some (js "https://pub-1.r2.dev/media/50%"))
    VideoViewPage.initial
  = Throw URI.URIError.
Proof.
  destruct (url_param_wins (fun _ => Normal [Sample.clip])
              (<[STORAGE_KEY := js "[]"]> ∅) (js "clip.mp4-2")
              (js "https://pub-1.r2.dev/media/50%") VideoViewPage.initial)
    as (_ & _ & _ & Hthrow).
  - vm_compute. discriminate.
  - apply Hthrow. reflexivity.
Defined.

(** X14: whatever the searches of the stored list find is a record of that
    list whose type is "video", never an image.  A video record whose id is
    the route id is found by id, before any match by URL.  When nothing is
    found, no video record of the list has that id or that URL. *)
Theorem found_video_is_stored_video (files : list UploadedFile)
    (videoId : jsstring) :
  (forall v,
      VideoViewPage.find_video files videoId = Some v ->
      In v files /\ type v = Some (js "video"))
  /\ (forall f,
         In f files -> id f = videoId -> type f = Some (js "video") ->
         exists v,
           VideoViewPage.find_video files videoId = Some v
           /\ id v = videoId /\ type v = Some (js "video"))
  /\ (VideoViewPage.find_video files videoId = None ->
      forall f,
        In f files -> type f = Some (js "video") ->
        id f <> videoId /\ url f <> videoId).
Proof.
  assert (Hvideo : forall f, type_is_video f = true <-> type f = Some (js "video")).
  { intros f. unfold type_is_video, str_eqb. split.
    - destruct (type f) as [t|]; [|discriminate].
      intros Hv. apply bool_decide_eq_true in Hv. by subst t.
    - intros ->. by apply bool_decide_eq_true. }
  unfold VideoViewPage.find_video. split_and!.
  - intros v Hfound.
    destruct (List.find (VideoViewPage.by_id videoId) files) as [v1|] eqn:H1.
    { injection Hfound as <-. apply find_some in H1 as [Hin Hp].
      unfold VideoViewPage.by_id in Hp. apply andb_true_iff in Hp as [_ Hp].
      split; [done|by apply Hvideo]. }
    destruct (List.find (VideoViewPage.by_url videoId) files) as [v2|] eqn:H2.
    { injection Hfound as <-. apply find_some in H2 as [Hin Hp].
      unfold VideoViewPage.by_url in Hp. apply andb_true_iff in Hp as [Hp _].
      split; [done|by apply Hvideo]. }
    apply find_some in Hfound as [Hin Hp].
    unfold VideoViewPage.by_fileName in Hp. apply andb_true_iff in Hp as [Hp _].
    split; [done|by apply Hvideo].
  - intros f Hin Hid Htype.
    destruct (List.find (VideoViewPage.by_id videoId) files) as [v1|] eqn:H1.
    + exists v1. split; [done|]. apply find_some in H1 as [_ Hp].
      unfold VideoViewPage.by_id, str_eqb in Hp.
      apply andb_true_iff in Hp as [Hp1 Hp2].
      apply bool_decide_eq_true in Hp1. split; [done|by apply Hvideo].
    + exfalso. pose proof (find_none _ _ H1 f Hin) as Hp.
      unfold VideoViewPage.by_id, str_eqb in Hp.
      rewrite bool_decide_eq_true_2 in Hp by done.
      apply Hvideo in Htype. rewrite Htype in Hp. discriminate Hp.
  - intros Hnone f Hin Htype. apply Hvideo in Htype.
    destruct (List.find (VideoViewPage.by_id videoId) files) as [v1|] eqn:H1;
      [discriminate Hnone|].
    destruct (List.find (VideoViewPage.by_url videoId) files) as [v2|] eqn:H2;
      [discriminate Hnone|].
    pose proof (find_none _ _ H1 f Hin) as Hp1.
    pose proof (find_none _ _ H2 f Hin) as Hp2.
    unfold VideoViewPage.by_id, VideoViewPage.by_url, str_eqb in Hp1, Hp2.
    rewrite Htype in Hp1, Hp2. rewrite andb_true_r in Hp1. cbn in Hp2.
    apply bool_decide_eq_false in Hp1.
    apply orb_false_iff in Hp2 as [Hp2 _].
    apply orb_false_iff in Hp2 as [Hp2 _].
    apply bool_decide_eq_false in Hp2. done.
Qed.

Lemma found_video_is_stored_video_witness :
  exists v,
    VideoViewPage.find_video [Sample.cat; Sample.legacy; Sample.clip]
      (js "clip.mp4-2") = Some v
    /\ id v = js "clip.mp4-2" /\ type v = Some (js "video").
Proof.
  apply (proj1 (proj2 (found_video_is_stored_video
                         [Sample.cat; Sample.legacy; Sample.clip]
                         (js "clip.mp4-2")))
           Sample.clip).
  - right. right. left. reflexivity.
  - reflexivity.
  - reflexivity.
Defined.

(** X15: for a route id without a slash the third search, by file name,
    never finds anything that the search by URL has not found: the result
    is that of the first two searches. *)
Theorem third_search_redundant (files : list UploadedFile)
    (videoId : jsstring) :
  ~ In (cu "/") videoId ->
  VideoViewPage.find_video files videoId
  = match List.find (VideoViewPage.by_id videoId) files with
    | Some v => Some v
    | None => List.find (VideoViewPage.by_url videoId) files
    end.
Proof.
  intros Hplain. unfold VideoViewPage.find_video.
  destruct (List.find (VideoViewPage.by_id videoId) files) as [v1|]; [done|].
  destruct (List.find (VideoViewPage.by_url videoId) files) as [v2|] eqn:H2;
    [done|].
  rewrite (last_part_plain _ Hplain).
  destruct (List.find (VideoViewPage.by_fileName videoId) files) as [v3|] eqn:H3;
    [|done].
  exfalso. apply find_some in H3 as [Hin Hp].
  pose proof (find_none _ _ H2 v3 Hin) as Hq.
  unfold VideoViewPage.by_fileName in Hp. unfold VideoViewPage.by_url in Hq.
  apply andb_true_iff in Hp as [Hv Hinc]. rewrite Hv, Hinc in Hq.
  cbn in Hq. rewrite orb_true_r in Hq. discriminate Hq.
Qed.

Lemma third_search_redundant_witness :
  VideoViewPage.find_video [Sample.cat; Sample.clip] (js "2-clip")
  = match List.find (VideoViewPage.by_id (js "2-clip")) [Sample.cat; Sample.clip] with
    | Some v => Some v
    | None => List.find (VideoViewPage.by_url (js "2-clip")) [Sample.cat; Sample.clip]
    end.
Proof.
  apply (third_search_redundant [Sample.cat; Sample.clip] (js "2-clip")).
  vm_compute. intuition discriminate.
Defined.

(** X16: a stored video whose URL ends with a slash matches every route
    id in the search by URL, because its last part is empty and every
    string includes the empty string: with such a record in the list the
    page always finds some video. *)
Theorem trailing_slash_matches_all (files : list UploadedFile)
    (videoId : jsstring) (f : UploadedFile) (a : jsstring) :
  In f files ->
  type f = Some (js "video") ->
  url f = a ++ [cu "/"] ->
  VideoViewPage.by_url videoId f = true
  /\ exists v, VideoViewPage.find_video files videoId = Some v.
Proof.
  intros Hin Htype Hurl.
  assert (Hmatch : VideoViewPage.by_url videoId f = true).
  { unfold VideoViewPage.by_url, type_is_video. rewrite Htype, Hurl.
    unfold str_eqb at 1. rewrite bool_decide_eq_true_2 by done.
    rewrite split_on_app.
    change (split_on (cu "/") []) with [@nil N].
    rewrite last_snoc. cbn [or_empty truthy_str].
    by rewrite includes_empty, orb_true_r. }
  split; [exact Hmatch|].
  unfold VideoViewPage.find_video.
  destruct (List.find (VideoViewPage.by_id videoId) files) as [v1|]; [eauto|].
  destruct (List.find (VideoViewPage.by_url videoId) files) as [v2|] eqn:H2;
    [eauto|].
  rewrite (find_none _ _ H2 f Hin) in Hmatch. discriminate Hmatch.
Qed.

Lemma trailing_slash_matches_all_witness :
  exists v,
    VideoViewPage.find_video
      [{| id := js "dir-1"; url := js "https://pub-1.r2.dev/media/";
          name := js "media"; type := Some (js "video") |}]
      (js "anything") = Some v.
Proof.
  apply (trailing_slash_matches_all _ (js "anything")
           {| id := js "dir-1"; url := js "https://pub-1.r2.dev/media/";
              name := js "media"; type := Some (js "video") |}
           (js "https://pub-1.r2.dev/media")).
  - left. reflexivity.
  - reflexivity.
  - reflexivity.
Defined.


(** * From the upload response to the video page *)

Lemma key_chars (w : World) (f : File) :
  forallb Outcome.key_char (fileName_of w f) = true.
Proof.
  rewrite fileName_of_sanitized.
  destruct (Number_toString_shape (Date_now w)) as (g & d & -> & Hg & _ & Hd).
  rewrite !forallb_app.
  apply andb_true_iff; split; apply andb_true_iff; split.
  - by destruct Hg as [-> | ->].
  - rewrite forallb_forall in Hd |- *. intros c Hc.
    unfold Outcome.key_char. by rewrite (Hd c Hc).
  - reflexivity.
  - pose proof (sanitized_safe (File_name f)) as Hs.
    rewrite forallb_forall in Hs |- *. intros c Hc.
    unfold Outcome.key_char. rewrite (Hs c Hc). by rewrite orb_true_r.
Qed.

(** A generated key holds neither a slash nor a percent sign. *)
Lemma key_plain (w : World) (f : File) :
  ~ In (cu "/") (fileName_of w f) /\ ~ In (cu "%") (fileName_of w f).
Proof.
  pose proof (key_chars w f) as Hk. rewrite forallb_forall in Hk.
  split; intros Hin; apply Hk in Hin; vm_compute in Hin; discriminate Hin.
Qed.

Lemma fileUrl_of_ends_with_key (w : World) (fileName : jsstring) :
  exists base, fileUrl_of w fileName = base ++ cu "/" :: fileName.
Proof.
  unfold fileUrl_of.
  destruct (truthy_opt (env w !! "R2_PUBLIC_URL"%string)).
  - exists (interpolate (env w !! "R2_PUBLIC_URL"%string) ++ js "/"
              ++ interpolate (env w !! "AWS_S3_BUCKET_NAME"%string)).
    by rewrite <- !app_assoc.
  - exists (interpolate (env w !! "AWS_S3_API_URL"%string) ++ js "/"
              ++ interpolate (env w !! "AWS_S3_BUCKET_NAME"%string)).
    by rewrite <- !app_assoc.
Qed.

(** X17: the URL that a successful upload returns, given to the video page
    as its [url] parameter, makes the page show the object key as the name:
    the returned [fileName] is the key of the one write, it is the text
    after the last slash of the URL and, holding no percent sign, decodes
    to itself.  The page then plays exactly the returned URL. *)
Theorem uploaded_url_shows_key (w : World) (file : File)
    (resp : NextResponse) (success : bool) (url fileName kind : jsstring)
    (JSON_parse : jsstring -> completion (list UploadedFile)) (ls : Storage)
    (videoId : jsstring) (st : VideoViewPage.State) :
  Client.fetch_upload w file = Normal resp ->
  body resp = SuccessBody success url fileName kind ->
  (exists cmd,
      sends (run_POST w (Outcome.upload_of file)).2 = [cmd]
      /\ Key cmd = fileName)
  /\ VideoViewPage.last_part url = fileName
  /\ VideoViewPage.effect JSON_parse ls videoId (Some url) st
     = Normal {| VideoViewPage.video :=
                   Some {| id := url; url := url; name := fileName;
                           type := Some (js "video") |};
                 VideoViewPage.loading := false |}.
Proof.
  intros Hfetch Hbody.
  destruct (fetch_upload_cases w file)
    as [[Hstored Hok]|[_ (code & _ & Hbad)]].
  2: { rewrite Hbad in Hfetch. injection Hfetch as <-. discriminate Hbody. }
  rewrite Hok in Hfetch. injection Hfetch as <-.
  cbn in Hbody. injection Hbody as _ <- <- _.
  destruct Hstored as (Hsup & Hsize & buffer & Hbuf & Hsend).
  destruct (key_plain w file) as [Hslash Hpercent].
  destruct (fileUrl_of_ends_with_key w (fileName_of w file)) as [base Hurl].
  assert (Hlast : VideoViewPage.last_part (fileUrl_of w (fileName_of w file))
                  = fileName_of w file).
  { rewrite Hurl. by apply last_part_after_slash. }
  split_and!.
  - exists (Paths.command_for w file buffer). split; [|reflexivity].
    apply supported_not_unsupported in Hsup.
    rewrite size_limit_maxSize in Hsize.
    rewrite run_POST_caught.
    by rewrite (try_path_sound w _ _ _
                  (Paths.stored w (Outcome.upload_of file) _ file buffer
                     eq_refl (get_upload_of file) Hsup Hsize Hbuf Hsend)).
  - exact Hlast.
  - unfold VideoViewPage.effect, VideoViewPage.video_of_url.
    rewrite Hlast, (decodeURIComponent_plain _ Hpercent).
    rewrite Hurl. by destruct base.
Qed.

Lemma uploaded_url_shows_key_witness :
  VideoViewPage.effect (fun _ => Normal []) ∅ (js "clip.mp4-2")
    (Some (js "https://pub-1.r2.dev/media/1730000000000-clip.mp4"))
    VideoViewPage.initial
  = Normal {| VideoViewPage.video :=
                Some {| id := js "https://pub-1.r2.dev/media/1730000000000-clip.mp4";
                        url := js "https://pub-1.r2.dev/media/1730000000000-clip.mp4";
                        name := js "1730000000000-clip.mp4";
                        type := Some (js "video") |};
              VideoViewPage.loading := false |}.
Proof.
  apply (uploaded_url_shows_key Sample.world Sample.mp4
           (Paths.success_response Sample.world Sample.mp4) true
           (js "https://pub-1.r2.dev/media/1730000000000-clip.mp4")
           (js "1730000000000-clip.mp4") (js "video")
           (fun _ => Normal []) ∅ (js "clip.mp4-2") VideoViewPage.initial).
  - reflexivity.
  - reflexivity.
Defined.

(** * Handing the list from page to page *)

Lemma stringify_truthy (files : list UploadedFile) :
  truthy_str (JSON.stringify files) = true.
Proof. reflexivity. Qed.

(** X18: a list that the storage key mirrors is what the next page loads,
    provided [JSON.parse] gives that list back from its JSON text: the
    gallery and the upload page both start with it, and the upload page's
    re-persisting leaves storage as it was. *)
Theorem pages_hand_over_list
    (JSON_parse : jsstring -> completion (list UploadedFile)) (ls : Storage)
    (files : list UploadedFile) :
  Spec.mirrors ls files ->
  JSON_parse (JSON.stringify files) = Normal files ->
  Gallery.uploadedFiles (Gallery.mount JSON_parse ls) = files
  /\ UploadPage.uploadedFiles (UploadPage.mount JSON_parse ls) = files
  /\ UploadPage.localStorage (UploadPage.mount JSON_parse ls) = ls.
Proof.
  intros Hmirror Hparse.
  assert (Hload : default [] (load_files JSON_parse ls) = files
                  /\ (load_files JSON_parse ls = None -> files = [])).
  { unfold load_files. unfold Spec.mirrors in Hmirror. rewrite Hmirror.
    destruct files as [|f files]; [done|].
    rewrite stringify_truthy, Hparse. done. }
  destruct Hload as [Hload Hnone].
  unfold Gallery.mount, UploadPage.mount; cbn [Gallery.uploadedFiles].
  split; [exact Hload|].
  destruct (load_files JSON_parse ls) as [loaded|]; cbn in Hload.
  - subst loaded. cbn. split; [done|].
    change (delete STORAGE_KEY ls) with (store_files [] ls).
    by rewrite store_files_twice, store_files_mirrored.
  - subst files. cbn. split; [done|].
    by apply (store_files_mirrored [] ls).
Qed.

Lemma pages_hand_over_list_witness :
  let ls := store_files [Sample.cat; Sample.clip] ∅ in
  Gallery.uploadedFiles
    (Gallery.mount (fun _ => Normal [Sample.cat; Sample.clip]) ls)
  = [Sample.cat; Sample.clip]
  /\ UploadPage.uploadedFiles
       (UploadPage.mount (fun _ => Normal [Sample.cat; Sample.clip]) ls)
     = [Sample.cat; Sample.clip]
  /\ UploadPage.localStorage
       (UploadPage.mount (fun _ => Normal [Sample.cat; Sample.clip]) ls)
     = ls.
Proof.
  intros ls.
  apply (pages_hand_over_list (fun _ => Normal [Sample.cat; Sample.clip]) ls
           [Sample.cat; Sample.clip]).
  - apply store_files_mirrors.
  - reflexivity.
Defined.

(** * [decodeURIComponent]: the fuel is enough *)

Lemma escape_octet_length (s rest : jsstring) (B : N) :
  URI.escape_octet s = Some (B, rest) -> length s = (3 + length rest)%nat.
Proof.
  destruct s as [|p [|h1 [|h2 r]]]; cbn [URI.escape_octet length]; try done.
  destruct (p =? cu "%"); [|done].
  destruct (URI.hex_value h1), (URI.hex_value h2); try done.
  by intros [= _ <-].
Qed.

Lemma continuation_octets_length (n : nat) (s rest : jsstring) (Bs : list N) :
  URI.continuation_octets n s = Some (Bs, rest) ->
  (length rest <= length s)%nat.
Proof.
  revert s Bs. induction n as [|n IH]; intros s Bs; cbn.
  - by intros [= _ <-].
  - destruct (URI.escape_octet s) as [[B r]|] eqn:Hesc; [|done].
    destruct (URI.continuation_octets n r) as [[Bs' r']|] eqn:Hcont; [|done].
    intros [= _ <-]. apply escape_octet_length in Hesc.
    apply IH in Hcont. lia.
Qed.

(** Any fuel of at least the length of the string gives the same result. *)
Lemma Decode_fuel (fuel1 fuel2 : nat) (s : jsstring) :
  (length s <= fuel1)%nat -> (length s <= fuel2)%nat ->
  URI.Decode fuel1 s = URI.Decode fuel2 s.
Proof.
  revert fuel2 s. induction fuel1 as [|fuel1 IH]; intros [|fuel2] [|c s] H1 H2;
    try done; cbn in H1, H2; try lia.
  cbn [URI.Decode]. destruct (c =? cu "%").
  - destruct (URI.escape_octet (c :: s)) as [[B rest1]|] eqn:Hesc; [|done].
    apply escape_octet_length in Hesc. cbn in Hesc.
    destruct (URI.leading_ones B) as [|[|[|[|[|n]]]]]; try done.
    + rewrite (IH fuel2 rest1); [done|lia|lia].
    + destruct (URI.continuation_octets _ rest1) as [[Bs rest2]|] eqn:Hcont;
        [|done].
      apply continuation_octets_length in Hcont.
      destruct (URI.utf8_code_point B Bs); [|done].
      rewrite (IH fuel2 rest2); [done|lia|lia].
    + destruct (URI.continuation_octets _ rest1) as [[Bs rest2]|] eqn:Hcont;
        [|done].
      apply continuation_octets_length in Hcont.
      destruct (URI.utf8_code_point B Bs); [|done].
      rewrite (IH fuel2 rest2); [done|lia|lia].
    + destruct (URI.continuation_octets _ rest1) as [[Bs rest2]|] eqn:Hcont;
        [|done].
      apply continuation_octets_length in Hcont.
      destruct (URI.utf8_code_point B Bs); [|done].
      rewrite (IH fuel2 rest2); [done|lia|lia].
  - rewrite (IH fuel2 s); [done|lia|lia].
Qed.

Example decodeURIComponent_samples :
  URI.decodeURIComponent (js "a%20b") = Normal (js "a b")
  /\ URI.decodeURIComponent (js "caf%C3%A9") = Normal [99; 97; 102; 233]
  /\ URI.decodeURIComponent (js "%F0%9F%98%80") = Normal [55357; 56832]
  /\ URI.decodeURIComponent (js "50%") = Throw URI.URIError
  /\ URI.decodeURIComponent (js "%C0%80") = Throw URI.URIError
  /\ URI.decodeURIComponent (js "%ED%A0%80") = Throw URI.URIError.
Proof. repeat split; reflexivity. Qed.
